(** * The hotel listing service of [main.py]

    A shallow embedding of the [/hotels] endpoint: the seed step
    [_ensure_seed_hotels], the query [list_hotels] with its storage
    predicate, its [max_price] post-filter, its projection and its final
    sort, over loosely typed documents.

    - [Py]: the fragment of Python the handler runs on stored values
      ([dict.get], [o["price"]], [min], [float], [int], [<], truthiness,
      [list.sort]).
    - [Regex], [Database]: the document store behind [database.py]
      ([count_documents], [create_document], [get_documents]) and the two
      query operators the handler sends to it.
    - the handler itself, then the properties of the specification. *)

From Stdlib Require Import QArith Ascii String Sorted.
From stdpp Require Import gmap strings list fin_maps sorting.

Local Open Scope string_scope.
Local Open Scope list_scope.
Local Open Scope Z_scope.

(* ===================================================================== *)
(** ** Outcomes of a Python computation *)
(* ===================================================================== *)

(** The exceptions the handler can meet. [ServiceUnavailable] is what the
    storage helpers raise when the process has no database handle. *)
Inductive exn :=
| TypeError
| ValueError
| AttributeError
| KeyError
| OverflowError
| ServiceUnavailable.

(** A computation returns, raises, or leaves the modelled fragment of
    Python and MongoDB ([Unmodelled]: parsing a string as a number,
    rounding a large integer to a double, a rating that is not finite,
    comparing two lists, sorting keys of which one is NaN, a regular
    expression with operators other than [.]).  Nothing is claimed about
    an [Unmodelled] run. *)
Inductive result (A : Type) :=
| Ok (a : A)
| Raise (e : exn)
| Unmodelled.
Arguments Ok {A} a.
Arguments Raise {A} e.
Arguments Unmodelled {A}.

#[global] Instance result_ret : MRet result := fun A a => Ok a.
#[global] Instance result_bind : MBind result := fun A B f r =>
  match r with
  | Ok a => f a
  | Raise e => Raise e
  | Unmodelled => Unmodelled
  end.
#[global] Instance result_fmap : FMap result := fun A B f r =>
  match r with
  | Ok a => Ok (f a)
  | Raise e => Raise e
  | Unmodelled => Unmodelled
  end.

(* ===================================================================== *)
(** ** Python values and built-ins *)
(* ===================================================================== *)

Module Py.

(** What a stored document can hold.  An [int] is a [Z].  A [float] is
    [VFloat q] when it is finite, [q] being the rational the double
    denotes (comparisons of finite doubles, and of a double with an
    [int], are exact in Python, and the handler does no float
    arithmetic), [VNaN] when it is not a number, and [VInf] when it is
    infinite, negative or positive.  A [str] is its UTF-8 bytes; [VOid]
    is an [ObjectId]. *)
#[warnings="-register-all"] Inductive value :=
| VNone
| VInt (z : Z)
| VFloat (q : Q)
| VStr (s : string)
| VOid (n : N)
| VList (l : list value)
| VDict (m : gmap string value)
| VNaN
| VInf (negative : bool).

(** A stored record, a query result row, a seed record: a [dict] with
    string keys. *)
Abbreviation document := (gmap string value).

(** The number a value denotes, if it is an [int] or a finite [float]. *)
Definition num_of (v : value) : option Q :=
  match v with
  | VInt z => Some (inject_Z z)
  | VFloat q => Some q
  | _ => None
  end.

(** An [int] or a finite [float]. *)
Definition is_num (v : value) : bool :=
  match v with VInt _ | VFloat _ => true | _ => false end.

(** An [int] or a [float], finite or not. *)
Definition is_number (v : value) : bool :=
  match v with VInt _ | VFloat _ | VNaN | VInf _ => true | _ => false end.

Definition is_nan (v : value) : bool :=
  match v with VNaN => true | _ => false end.

(** [q < r] on rationals, as a boolean. *)
Definition Qlt_bool (q r : Q) : bool := negb (Qle_bool r q).

(** [bool(v)]: [None], zero and the empty containers are falsy. *)
Definition truthy (v : value) : bool :=
  match v with
  | VNone => false
  | VInt z => negb (z =? 0)
  | VFloat q => negb (Qeq_bool q 0)
  | VStr s => negb (String.eqb s "")
  | VOid _ => true
  | VList l => match l with [] => false | _ => true end
  | VDict m => negb (Nat.eqb (size m) 0)
  | VNaN | VInf _ => true
  end.

(** [for o in v]: the items a [for] loop or a comprehension visits.  A
    [list] gives its elements, a [str] its characters, a [dict] its keys;
    nothing else is iterable.  (A [str] is cut into bytes here and a
    [dict] loses its insertion order: the handler only asks whether there
    is an item and whether it is a [dict].) *)
Definition iter (v : value) : result (list value) :=
  match v with
  | VList l => Ok l
  | VStr s => Ok ((fun c => VStr (String c EmptyString)) <$> list_ascii_of_string s)
  | VDict m => Ok ((fun kv => VStr kv.1) <$> map_to_list m)
  | VNone | VInt _ | VFloat _ | VOid _ | VNaN | VInf _ => Raise TypeError
  end.

(** [o.get(k, dflt)]: only a [dict] has the method. *)
Definition get (o : value) (k : string) (dflt : value) : result value :=
  match o with
  | VDict m => Ok (default dflt (m !! k))
  | _ => Raise AttributeError
  end.

(** [o[k]] for a string key [k]: a missing key of a [dict] is a
    [KeyError]; a [str] or a [list] takes no string index and the other
    values take none at all. *)
Definition getitem (o : value) (k : string) : result value :=
  match o with
  | VDict m => match m !! k with Some v => Ok v | None => Raise KeyError end
  | _ => Raise TypeError
  end.

(** [float(v)], where the result is finite.  An [int] beyond 2^53 is
    rounded (or overflows) and a [str] is parsed: both left out of the
    model, as is the float that is not finite (which [float] returns as
    it is). *)
Definition float (v : value) : result Q :=
  match v with
  | VInt z => if Z.abs z <=? 2 ^ 53 then Ok (inject_Z z) else Unmodelled
  | VFloat q => Ok q
  | VStr _ | VNaN | VInf _ => Unmodelled
  | VNone | VOid _ | VList _ | VDict _ => Raise TypeError
  end.

(** [int(v)]: a finite [float] is truncated towards zero; NaN is a
    [ValueError] and an infinity an [OverflowError]. *)
Definition int (v : value) : result Z :=
  match v with
  | VInt z => Ok z
  | VFloat q => Ok (Z.quot (Qnum q) (Z.pos (Qden q)))
  | VStr _ => Unmodelled
  | VNaN => Raise ValueError
  | VInf _ => Raise OverflowError
  | VNone | VOid _ | VList _ | VDict _ => Raise TypeError
  end.

(** [a < b].  Numbers compare by value: no number is below or above
    NaN, and the infinities lie below and above every other number.
    Strings compare by code point (which is the order of their UTF-8
    bytes), [ObjectId]s by their bytes; every other pairing raises
    [TypeError], but for two lists, which Python compares element by
    element. *)
Definition lt (a b : value) : result bool :=
  match a, b with
  | VInt x, VInt y => Ok (x <? y)
  | VInt x, VFloat r => Ok (Qlt_bool (inject_Z x) r)
  | VFloat q, VInt y => Ok (Qlt_bool q (inject_Z y))
  | VFloat q, VFloat r => Ok (Qlt_bool q r)
  | VNaN, (VInt _ | VFloat _ | VNaN | VInf _) => Ok false
  | (VInt _ | VFloat _ | VInf _), VNaN => Ok false
  | VInf negative, (VInt _ | VFloat _) => Ok negative
  | (VInt _ | VFloat _), VInf negative => Ok (negb negative)
  | VInf n1, VInf n2 => Ok (n1 && negb n2)
  | VStr s, VStr t => Ok (String.ltb s t)
  | VOid n, VOid m => Ok (n <? m)%N
  | VList _, VList _ => Unmodelled
  | _, _ => Raise TypeError
  end.

(** [a > b], which Python answers as [b < a] on these values. *)
Definition gt (a b : value) : result bool := lt b a.

(** The scan of [min]: the running minimum [best] is replaced by an item
    that is [<] it, so the first of several least items is returned. *)
Fixpoint min_from (best : value) (l : list value) : result value :=
  match l with
  | [] => Ok best
  | x :: l' =>
      b ← lt x best;
      min_from (if b : bool then x else best) l'
  end.

(** [min(l)]: a [ValueError] on the empty list. *)
Definition min (l : list value) : result value :=
  match l with
  | [] => Raise ValueError
  | x :: l' => min_from x l'
  end.

(** [min(l, default=dflt)]. *)
Definition min_default (l : list value) (dflt : value) : result value :=
  match l with
  | [] => Ok dflt
  | x :: l' => min_from x l'
  end.

(** Two or more keys, one of them NaN: [<] does not order them. *)
Definition nan_among (ks : list value) : bool :=
  (1 <? length ks)%nat && existsb is_nan ks.

(** [l.sort(key=key)].  The keys are computed first, one call per item in
    list order; then the items are put in ascending key order with [<]
    alone, equal keys keeping their order ([list.sort] is stable).  A
    stable insertion sort stands for Python's merge sort: on keys that
    [<] orders both return the same list, and both raise [TypeError] as
    soon as the list has two items and holds keys that [<] refuses.
    With a NaN among two or more keys [<] is no order, what [list.sort]
    returns depends on the comparisons it happens to make (the list may
    come back neither sorted nor stable), and the run is left out of the
    model. *)
Section Sort.
Context {A : Type}.

Fixpoint insert_by_key (kx : value * A) (l : list (value * A))
  : result (list (value * A)) :=
  match l with
  | [] => Ok [kx]
  | ky :: l' =>
      b ← lt ky.1 kx.1;
      if b : bool then
        r ← insert_by_key kx l';
        Ok (ky :: r)
      else Ok (kx :: ky :: l')
  end.

Fixpoint sort_keyed (l : list (value * A)) : result (list (value * A)) :=
  match l with
  | [] => Ok []
  | kx :: l' =>
      s ← sort_keyed l';
      insert_by_key kx s
  end.

Definition sort (key : A → result value) (l : list A) : result (list A) :=
  ks ← mapM key l;
  if nan_among ks then Unmodelled
  else
    s ← sort_keyed (zip ks l);
    Ok (s.*2).
End Sort.

End Py.

(* ===================================================================== *)
(** ** The regular expressions of the storage predicate *)
(* ===================================================================== *)

(** [{"$regex": pattern, "$options": "i"}] is an unanchored,
    case-insensitive PCRE search, in UTF-8 mode.  The fragment modelled:
    patterns made of ASCII characters that stand for themselves and of
    [.], which matches any one character but a newline.  An ASCII letter
    matches its other case, and two letters have a third, outside ASCII:
    [k] matches the Kelvin sign U+212A and [s] the long s U+017F. *)
Module Regex.

Inductive atom :=
| Lit (c : ascii)
| AnyChar.

(** The characters PCRE gives a meaning of their own. *)
Definition is_meta (c : ascii) : bool :=
  existsb (Ascii.eqb c) (list_ascii_of_string "\^$.[]|()?*+{}").

Definition compile_char (c : ascii) : option atom :=
  if Ascii.eqb c "." then Some AnyChar
  else if is_meta c || (128 <=? nat_of_ascii c)%nat then None
  else Some (Lit c).

(** The pattern as a list of atoms; [None] outside the fragment. *)
Definition compile (pattern : string) : option (list atom) :=
  mapM compile_char (list_ascii_of_string pattern).

Definition lower (c : ascii) : ascii :=
  let n := nat_of_ascii c in
  if (65 <=? n)%nat && (n <=? 90)%nat then ascii_of_nat (n + 32) else c.

(** A byte [10xxxxxx] continues a multi-byte character. *)
Definition is_cont (c : ascii) : bool :=
  let n := nat_of_ascii c in (128 <=? n)%nat && (n <? 192)%nat.

Fixpoint skip_cont (s : list ascii) : list ascii :=
  match s with
  | c :: s' => if is_cont c then skip_cont s' else s
  | [] => []
  end.

Definition newline : ascii := ascii_of_nat 10.

(** The UTF-8 bytes of U+212A and of U+017F. *)
Definition kelvin : list ascii := [ascii_of_nat 226; ascii_of_nat 132; ascii_of_nat 170].
Definition long_s : list ascii := [ascii_of_nat 197; ascii_of_nat 191].

(** What is left of [s] after the prefix [pre]. *)
Fixpoint strip (pre s : list ascii) : option (list ascii) :=
  match pre, s with
  | [], _ => Some s
  | a :: pre', c :: s' => if Ascii.eqb a c then strip pre' s' else None
  | _ :: _, [] => None
  end.

(** What is left of [s] after one character that the letter [a] matches
    without regard to case. *)
Definition lit_rest (a : ascii) (s : list ascii) : option (list ascii) :=
  match s with
  | c :: s' =>
      if Ascii.eqb (lower a) (lower c) then Some s'
      else if Ascii.eqb (lower a) "k" then strip kelvin s
      else if Ascii.eqb (lower a) "s" then strip long_s s
      else None
  | [] => None
  end.

(** The pattern matches a prefix of [s]. *)
Fixpoint match_here (p : list atom) (s : list ascii) : bool :=
  match p with
  | [] => true
  | Lit a :: p' =>
      match lit_rest a s with
      | Some s' => match_here p' s'
      | None => false
      end
  | AnyChar :: p' =>
      match s with
      | c :: s' => negb (Ascii.eqb c newline) && match_here p' (skip_cont s')
      | [] => false
      end
  end.

(** The pattern matches somewhere in [s], from the start of a character. *)
Fixpoint search (p : list atom) (s : list ascii) : bool :=
  match s with
  | [] => match_here p []
  | c :: s' => negb (is_cont c) && match_here p s || search p s'
  end.

(** The compiled pattern of [{"$regex": pattern, "$options": options}];
    the handler always sends the options ["i"]. *)
Definition compile_i (pattern options : string) : result (list atom) :=
  if String.eqb options "i" then
    match compile pattern with
    | Some p => Ok p
    | None => Unmodelled
    end
  else Unmodelled.

(** The search on a string. *)
Definition search_in (p : list atom) (subject : string) : bool :=
  search p (list_ascii_of_string subject).

End Regex.

(* ===================================================================== *)
(** ** The document store *)
(* ===================================================================== *)

Module Database.
Import Py.

(** The collections of the store, each in insertion order, and the next
    identifier the store hands out. *)
Record database := {
  collections : gmap string (list document);
  next_oid : N;
}.

Definition collection (s : database) (name : string) : list document :=
  default [] (collections s !! name).

(** The process-wide handle [db] of [database.py]: [None] when no store
    is configured.  A handler is a computation that threads the handle
    and returns or raises; a write made before an exception stays. *)
Definition M (A : Type) : Type := option database → option database * result A.

#[global] Instance M_ret : MRet M := fun A a db => (db, Ok a).
#[global] Instance M_bind : MBind M := fun A B f c db =>
  match c db with
  | (db', Ok a) => f a db'
  | (db', Raise e) => (db', Raise e)
  | (db', Unmodelled) => (db', Unmodelled)
  end.

(** A computation that does not touch the store. *)
Definition pure {A} (r : result A) : M A := fun db => (db, r).

(** Reading the global [db]. *)
Definition handle : M (option database) := fun db => (db, Ok db).

(** The operators the handler puts into a filter: [{"$regex": pattern,
    "$options": options}] and [{"$gte": x}]. *)
Inductive cond :=
| CRegex (pattern options : string)
| CGte (x : Q).

(** A filter [dict]: field name to operator. *)
Abbreviation query := (gmap string cond).

(** [{"$gte": x}] on one value: a number at least [x].  The store ranks
    NaN below every number and the infinities below and above them. *)
Definition gte_matches (x : Q) (v : value) : bool :=
  match v with
  | VInf negative => negb negative
  | _ =>
      match num_of v with
      | Some q => Qle_bool x q
      | None => false
      end
  end.

(** MongoDB's reading of one operator on one field: a missing field or a
    value of another type does not match, and an array matches when one
    of its elements does. *)
Definition field_matches (c : cond) (field : option value) : result bool :=
  match c with
  | CRegex pattern options =>
      re ← Regex.compile_i pattern options;
      Ok match field with
         | Some (VStr s) => Regex.search_in re s
         | Some (VList vs) =>
             existsb (fun e => match e with VStr s => Regex.search_in re s | _ => false end) vs
         | _ => false
         end
  | CGte x =>
      Ok match field with
         | Some (VList vs) => existsb (gte_matches x) vs
         | Some v => gte_matches x v
         | None => false
         end
  end.

(** A document matches a filter when every field condition holds. *)
Definition matches (f : query) (d : document) : result bool :=
  bs ← mapM (fun kc : string * cond => field_matches kc.2 (d !! kc.1)) (map_to_list f);
  Ok (forallb id bs).

Fixpoint find (f : query) (docs : list document) : result (list document) :=
  match docs with
  | [] => Ok []
  | d :: ds =>
      b ← matches f d;
      r ← find f ds;
      Ok (if b : bool then d :: r else r)
  end.

(** [db[name].count_documents(f)], on a handle that is not [None]. *)
Definition count_documents (name : string) (f : query) : M Z := fun db =>
  match db with
  | Some s => (db, r ← find f (collection s name); Ok (Z.of_nat (length r)))
  | None => (db, Raise TypeError)
  end.

(** Modelled from the spec: [create_document] of [database.py], which is
    not among the sources ("insert(collection, record) -> id"; "storage
    unreachable -> propagate as a service-unavailable condition").  The
    record is appended to the collection under a fresh identifier. *)
Definition create_document (name : string) (data : document) : M value := fun db =>
  match db with
  | Some s =>
      let oid := VOid (next_oid s) in
      (Some {| collections := <[name := collection s name ++ [<["_id" := oid]> data]]> (collections s);
               next_oid := N.succ (next_oid s) |},
       Ok oid)
  | None => (db, Raise ServiceUnavailable)
  end.

(** Modelled from the spec: [get_documents] of [database.py], which is
    not among the sources ("find(collection, filter, limit) -> sequence
    of records"; "Fetch up to [limit] raw records matching the
    pushed-down predicate"; storage unreachable is an error). *)
Definition get_documents (name : string) (f : query) (limit : Z) : M (list document) := fun db =>
  match db with
  | Some s => (db, r ← find f (collection s name); Ok (take (Z.to_nat limit) r))
  | None => (db, Raise ServiceUnavailable)
  end.

End Database.

(* ===================================================================== *)
(** ** The handler of [main.py] *)
(* ===================================================================== *)

Import Py Database.

(** [{"name": n, "price": p}] *)
Definition offer (n : string) (p : Z) : value :=
  VDict (list_to_map [("name", VStr n); ("price", VInt p)]).

(** The four demo records of [_ensure_seed_hotels].  A rating is the
    double its decimal literal denotes. *)
Definition sample_hotels : list document := [
  list_to_map [
    ("name", VStr "Seaside Vista Resort");
    ("location", VStr "Miami Beach, USA");
    ("rating", VFloat (5010254585449677 # 562949953421312));  (* 8.9 *)
    ("reviews", VInt 2312);
    ("image", VStr "https://images.unsplash.com/photo-1501117716987-c8e01f2a0a3a?q=80&w=2070&auto=format&fit=crop");
    ("offers", VList [offer "Booking.com" 182; offer "Expedia" 176; offer "Hotels.com" 189])
  ];
  list_to_map [
    ("name", VStr "Alpine Lodge & Spa");
    ("location", VStr "Zermatt, Switzerland");
    ("rating", VFloat (2589569785738035 # 281474976710656));  (* 9.2 *)
    ("reviews", VInt 1348);
    ("image", VStr "https://images.unsplash.com/photo-1528909514045-2fa4ac7a08ba?q=80&w=2070&auto=format&fit=crop");
    ("offers", VList [offer "Booking.com" 245; offer "Expedia" 239; offer "Hotels.com" 252])
  ];
  list_to_map [
    ("name", VStr "City Center Boutique Hotel");
    ("location", VStr "Tokyo, Japan");
    ("rating", VFloat (4841369599423283 # 562949953421312));  (* 8.6 *)
    ("reviews", VInt 5120);
    ("image", VStr "https://images.unsplash.com/photo-1551882547-ff40c63fe5fa?q=80&w=2070&auto=format&fit=crop");
    ("offers", VList [offer "Booking.com" 128; offer "Expedia" 119; offer "Hotels.com" 130])
  ];
  list_to_map [
    ("name", VStr "Lagoon Overwater Villas");
    ("location", VStr "Malé, Maldives");
    ("rating", VFloat (19 # 2));  (* 9.5 *)
    ("reviews", VInt 874);
    ("image", VStr "https://images.unsplash.com/photo-1519710164239-da123dc03ef4?q=80&w=2070&auto=format&fit=crop");
    ("offers", VList [offer "Booking.com" 612; offer "Expedia" 598; offer "Hotels.com" 629])
  ]
].

(** [for h in sample_hotels: create_document("hotel", h)] *)
Fixpoint create_each (hs : list document) : M unit :=
  match hs with
  | [] => mret tt
  | h :: hs' => _ ← create_document "hotel" h; create_each hs'
  end.

(** Seed the database with some demo hotels if empty. *)
Definition _ensure_seed_hotels : M unit :=
  db ← handle;
  match db with
  | None => mret tt
  | Some _ =>
      count ← count_documents "hotel" ∅;
      if 0 <? count then mret tt
      else create_each sample_hotels
  end.

(** An item of the response: the [dict] the loop appends, whose seven
    keys are fixed.  [id] holds the value whose [str] the handler takes
    ([str] never fails), [rating] and [reviews] the coerced numbers. *)
Record hotel := {
  id : value;
  name : value;
  location : value;
  rating : Q;
  reviews : Z;
  image : value;
  offers : value;
}.

(** [1e9], the sort key of a hotel without offers. *)
Definition no_offer_key : Q := 1000000000 # 1.

(** [best_price = min([o.get("price", 0) for o in offers], default=None)] *)
Definition best_price (offers : value) : result value :=
  os ← iter offers;
  prices ← mapM (fun o => get o "price" (VInt 0)) os;
  min_default prices VNone.

(** [max_price is not None and best_price is not None and best_price > max_price] *)
Definition over_max_price (max_price : option Q) (best_price : value) : result bool :=
  match max_price, best_price with
  | None, _ => Ok false
  | Some _, VNone => Ok false
  | Some m, _ => gt best_price (VFloat m)
  end.

(** The body of [for d in docs]: [None] where the loop continues without
    appending. *)
Definition project (max_price : option Q) (d : document) : result (option hotel) :=
  let offers := default (VList []) (d !! "offers") in
  best ← best_price offers;
  over ← over_max_price max_price best;
  if over : bool then Ok None
  else
    rating ← float (default (VInt 0) (d !! "rating"));
    reviews ← int (default (VInt 0) (d !! "reviews"));
    Ok (Some {| id := default VNone (d !! "_id");
                name := default VNone (d !! "name");
                location := default VNone (d !! "location");
                rating := rating;
                reviews := reviews;
                image := default VNone (d !! "image");
                offers := offers |}).

(** The loop over the fetched documents, in order. *)
Fixpoint project_all (max_price : option Q) (docs : list document) : result (list hotel) :=
  match docs with
  | [] => Ok []
  | d :: ds =>
      h ← project max_price d;
      hs ← project_all max_price ds;
      Ok (from_option (fun x => x :: hs) hs h)
  end.

(** [min([o["price"] for o in h.get("offers", [])]) if h.get("offers") else 1e9] *)
Definition sort_key (h : hotel) : result value :=
  if truthy (offers h) then
    os ← iter (offers h);
    prices ← mapM (fun o => getitem o "price") os;
    min prices
  else Ok (VFloat no_offer_key).

(** The storage filter [f] built from [destination] and [min_rating]. *)
Definition base_filter (destination : option string) (min_rating : option Q) : query :=
  let f : query := ∅ in
  let f := match destination with
           | Some s => if String.eqb s "" then f else <["location" := CRegex s "i"]> f
           | None => f
           end in
  let f := match min_rating with
           | Some r => <["rating" := CGte r]> f
           | None => f
           end in
  f.

Definition list_hotels (destination : option string) (max_price : option Q)
    (min_rating : option Q) (limit : Z) : M (list hotel) :=
  _ ← _ensure_seed_hotels;
  let f := base_filter destination min_rating in
  docs ← get_documents "hotel" f limit;
  hotels ← pure (project_all max_price docs);
  pure (sort sort_key hotels).

(** An empty store that is reachable. *)
Definition empty_db : database := {| collections := ∅; next_oid := 0 |}.

(* ===================================================================== *)
(** ** The diagnostic endpoint *)
(* ===================================================================== *)

(** [test_database] reads three things outside itself: what importing
    [db] from the database module does, what the handle answers, and two
    environment variables.  They are its [environment] here. *)
Module Diagnostics.

(** The text of an exception, [str(e)], as its characters. *)
Abbreviation pystr := (list N).

(** [test_db.list_collection_names()]: the names, or an exception. *)
Inductive listing :=
| Names (names : list string)
| ListingRaises (e : pystr).

(** The handle [test_db] as the endpoint uses it: its [name] attribute,
    if it has one, and its listing. *)
Record handle := {
  name : option string;
  list_collection_names : listing;
}.

(** [from database import db as test_db]: the handle (or [None]), an
    [ImportError], or another exception. *)
Inductive import :=
| Imported (test_db : option handle)
| ImportError
| ImportRaises (e : pystr).

Record environment := {
  database_module : import;
  DATABASE_URL : option string;
  DATABASE_NAME : option string;
}.

(** A status line: a literal, or the f-string [f"{prefix}{str(e)[:50]}"],
    kept as its literal prefix and the characters that follow it. *)
Inductive text :=
| Literal (s : string)
| WithError (prefix : string) (e : pystr).

(** The [response] dict, whose six keys are fixed; [None] is Python's. *)
Record response := {
  backend : string;
  database : text;
  database_url : option string;
  database_name : option string;
  connection_status : string;
  collections : list string;
}.

(** [response[key] = v], key by key. *)
Definition set_database (v : text) (r : response) : response :=
  {| backend := backend r; database := v; database_url := database_url r;
     database_name := database_name r; connection_status := connection_status r;
     collections := collections r |}.

Definition set_database_url (v : option string) (r : response) : response :=
  {| backend := backend r; database := database r; database_url := v;
     database_name := database_name r; connection_status := connection_status r;
     collections := collections r |}.

Definition set_database_name (v : option string) (r : response) : response :=
  {| backend := backend r; database := database r; database_url := database_url r;
     database_name := v; connection_status := connection_status r;
     collections := collections r |}.

Definition set_connection_status (v : string) (r : response) : response :=
  {| backend := backend r; database := database r; database_url := database_url r;
     database_name := database_name r; connection_status := v;
     collections := collections r |}.

Definition set_collections (v : list string) (r : response) : response :=
  {| backend := backend r; database := database r; database_url := database_url r;
     database_name := database_name r; connection_status := connection_status r;
     collections := v |}.

(** [os.getenv(k)] as a condition: set and not empty. *)
Definition getenv_truthy (v : option string) : bool :=
  match v with
  | Some s => negb (String.eqb s "")
  | None => false
  end.

(** Test endpoint to check if database is available and accessible. *)
Definition test_database (env : environment) : response :=
  let response := {|
    backend := "✅ Running";
    database := Literal "❌ Not Available";
    database_url := None;
    database_name := None;
    connection_status := "Not Connected";
    collections := [];
  |} in
  let response :=
    match database_module env with
    | Imported (Some test_db) =>
        let response := set_database (Literal "✅ Available") response in
        let response := set_database_url (Some "✅ Configured") response in
        let response :=
          set_database_name (Some (default "✅ Connected" (name test_db))) response in
        let response := set_connection_status "Connected" response in
        match list_collection_names test_db with
        | Names names =>
            let response := set_collections (take 10 names) response in
            set_database (Literal "✅ Connected & Working") response
        | ListingRaises e =>
            set_database (WithError "⚠️  Connected but Error: " (take 50 e)) response
        end
    | Imported None =>
        set_database (Literal "⚠️  Available but not initialized") response
    | ImportError =>
        set_database
          (Literal "❌ Database module not found (run enable-database first)") response
    | ImportRaises e =>
        set_database (WithError "❌ Error: " (take 50 e)) response
    end in
  let response :=
    set_database_url
      (Some (if getenv_truthy (DATABASE_URL env) then "✅ Set" else "❌ Not Set")) response in
  let response :=
    set_database_name
      (Some (if getenv_truthy (DATABASE_NAME env) then "✅ Set" else "❌ Not Set")) response in
  response.

End Diagnostics.


(* ===================================================================== *)
(** ** The vocabulary of the specification *)
(* ===================================================================== *)

(** The price of an offer: the number under its ["price"] key. *)
Definition offer_price (o : value) : option Q :=
  match o with
  | VDict m => m !! "price" ≫= num_of
  | _ => None
  end.

(** The lesser of two prices, the first on a tie. *)
Definition price_min (p q : Q) : Q := if Qlt_bool q p then q else p.

(** A hotel of the response has no offers: its [offers] is empty. *)
Definition no_offers (h : hotel) : Prop := truthy (offers h) = false.

(** The cheapest-offer price: the least price among the offers of a hotel
    whose [offers] is a non-empty list of priced offers. *)
Definition cheapest_price (h : hotel) : option Q :=
  match offers h with
  | VList (o :: os) =>
      p ← offer_price o;
      ps ← mapM offer_price os;
      Some (foldl price_min p ps)
  | _ => None
  end.

(** The price a hotel is ranked by: its cheapest offer, or [1e9] when it
    has no offers. *)
Definition price_key (h : hotel) : option Q :=
  if truthy (offers h) then cheapest_price h else Some no_offer_key.

(** Hotels without offers come after all hotels with offers. *)
Definition empty_offers_last (hs : list hotel) : Prop :=
  ∀ i j hi hj,
    hs !! i = Some hi → hs !! j = Some hj →
    no_offers hi → ¬ no_offers hj → (j < i)%nat.

(** The data model's typing of a price: where an offer has one, it is an
    [int] or a finite [float]. *)
Definition offer_price_typed (o : value) : bool :=
  match o with
  | VDict m => match m !! "price" with Some v => is_num v | None => true end
  | _ => true
  end.

Definition prices_typed (d : document) : bool :=
  match d !! "offers" with
  | Some (VList os) => forallb offer_price_typed os
  | _ => true
  end.

Definition db_prices_typed (db : option database) : Prop :=
  ∀ s, db = Some s → Forall (fun d => prices_typed d = true) (collection s "hotel").

(** An offer of the data model that may lack its price: a [dict] whose
    price, where present, is a non-negative [int] or finite [float]. *)
Definition offer_price_nonneg (o : value) : bool :=
  match o with
  | VDict m =>
      match m !! "price" with
      | Some v => match num_of v with Some q => Qle_bool 0 q | None => false end
      | None => true
      end
  | _ => false
  end.

Definition lacks_price (o : value) : bool :=
  match o with
  | VDict m => match m !! "price" with Some _ => false | None => true end
  | _ => false
  end.

(** A record the coercions accept: [rating] is missing, a finite [float]
    or an [int] within the exact range of a double; [reviews] is missing,
    an [int] or a finite [float]; and [offers] is missing or a list of
    [dict]s whose prices are missing or numbers, finite or not. *)
Definition rating_ok (v : option value) : bool :=
  match v with
  | None | Some (VFloat _) => true
  | Some (VInt z) => Z.abs z <=? 2 ^ 53
  | Some _ => false
  end.

Definition reviews_ok (v : option value) : bool :=
  match v with
  | None => true
  | Some v => is_num v
  end.

Definition offer_ok (o : value) : bool :=
  match o with
  | VDict m => match m !! "price" with Some v => is_num v | None => true end
  | _ => false
  end.

(** An offer whose price is missing or a number, finite or not. *)
Definition offer_numbered (o : value) : bool :=
  match o with
  | VDict m => match m !! "price" with Some v => is_number v | None => true end
  | _ => false
  end.

Definition offers_ok (v : option value) : bool :=
  match v with
  | None => true
  | Some (VList os) => forallb offer_numbered os
  | Some _ => false
  end.

Definition record_ok (d : document) : bool :=
  rating_ok (d !! "rating") && reviews_ok (d !! "reviews") && offers_ok (d !! "offers").

(** The pairs of values [<] answers on: two numbers, two strings or two
    identifiers. *)
Definition same_kind (a b : value) : Prop :=
  match a, b with
  | (VInt _ | VFloat _ | VNaN | VInf _), (VInt _ | VFloat _ | VNaN | VInf _) => True
  | VStr _, VStr _ => True
  | VOid _, VOid _ => True
  | _, _ => False
  end.

(** Where a number other than NaN stands among the numbers. *)
Inductive rank :=
| Lowest
| Finite (q : Q)
| Highest.

Definition rank_of (v : value) : option rank :=
  match v with
  | VInt z => Some (Finite (inject_Z z))
  | VFloat q => Some (Finite q)
  | VInf negative => Some (if negative then Lowest else Highest)
  | _ => None
  end.

Definition rank_le (x y : rank) : Prop :=
  match x, y with
  | Lowest, _ => True
  | _, Highest => True
  | Finite q, Finite r => (q <= r)%Q
  | _, _ => False
  end.

(** [a] is ranked no later than [b]: on numbers other than NaN, their
    order. *)
Definition key_le (a b : value) : Prop :=
  match rank_of a, rank_of b with
  | Some x, Some y => rank_le x y
  | None, None => same_kind a b ∧ is_nan a = false ∧ is_nan b = false
  | _, _ => False
  end.

(** An offer priced NaN, and a hotel that has one. *)
Definition offer_price_nan (o : value) : bool :=
  match o with
  | VDict m => match m !! "price" with Some v => is_nan v | None => false end
  | _ => false
  end.

Definition nan_priced (h : hotel) : bool :=
  match offers h with
  | VList os => existsb offer_price_nan os
  | _ => false
  end.

(** A response without a NaN price. *)
Definition nan_free (hs : list hotel) : Prop :=
  Forall (fun h => nan_priced h = false) hs.

(** The order of two items that carry their keys. *)
Definition keyed_le {A} (kx ky : value * A) : Prop := key_le kx.1 ky.1.

(** The demo records as stored by a store whose next identifier is [n]. *)
Definition seed_docs (n : N) : list document :=
  imap (fun i h => <["_id" := VOid (n + N.of_nat i)]> h) sample_hotels.

(** [needle] occurs in [hay], letters compared without case. *)
Definition lower_string (s : string) : list ascii :=
  Regex.lower <$> list_ascii_of_string s.

Definition contains_ci (needle hay : string) : Prop :=
  ∃ pre post, lower_string hay = pre ++ lower_string needle ++ post.

(** The same, as a test: [l] is a prefix of [k] or occurs further on. *)
Fixpoint occurs (l k : list ascii) : bool :=
  bool_decide (l `prefix_of` k) ||
  match k with
  | [] => false
  | _ :: k' => occurs l k'
  end.

(** The price an offer enters the minimum with: its own, or 0. *)
Definition counted_price (o : value) (q : Q) : Prop :=
  match o with
  | VDict m =>
      match m !! "price" with
      | Some v => num_of v = Some q
      | None => q = 0%Q
      end
  | _ => False
  end.

(** One letter of [needle] against a piece of [hay]: the piece is one
    character that is the letter or its other case, or it is the Kelvin
    sign for [k], or the long s for [s]. *)
Definition char_folds (a : ascii) (piece : list ascii) : Prop :=
  (∃ c, piece = [c] ∧ Regex.lower a = Regex.lower c) ∨
  (Regex.lower a = "k"%char ∧ piece = Regex.kelvin) ∨
  (Regex.lower a = "s"%char ∧ piece = Regex.long_s).

(** [needle] occurs in [hay], letter by letter without regard to case. *)
Definition contains_folded (needle hay : string) : Prop :=
  ∃ pre pieces post,
    list_ascii_of_string hay = pre ++ concat pieces ++ post ∧
    Forall2 char_folds (list_ascii_of_string needle) pieces.

(** The location of a hotel contains [destination]. *)
Definition located_in (destination : string) (h : hotel) : Prop :=
  ∃ s, location h = VStr s ∧ contains_ci destination s.

(** The location of a hotel, or one string of it where it is an array,
    contains [destination] letter by letter. *)
Definition located_folded (destination : string) (h : hotel) : Prop :=
  (∃ s, location h = VStr s ∧ contains_folded destination s) ∨
  (∃ vs s, location h = VList vs ∧ VStr s ∈ vs ∧ contains_folded destination s).

(** A destination without regular-expression operators. *)
Definition literal (destination : string) : Prop :=
  Forall (fun c => Regex.compile_char c = Some (Regex.Lit c))
         (list_ascii_of_string destination).

(** A hotel is ranked at the price [q]. *)
Definition ranked_at (q : Q) (h : hotel) : bool :=
  match price_key h with
  | Some p => Qeq_bool p q
  | None => false
  end.

(** The same of an item that carries its key. *)
Definition key_is {A} (q : Q) (kx : value * A) : bool :=
  match num_of kx.1 with
  | Some p => Qeq_bool p q
  | None => false
  end.

(** One maximum price admits at least what another does; no maximum
    admits most. *)
Definition cap_le (a b : option Q) : Prop :=
  match a, b with
  | _, None => True
  | Some m, Some m' => (m <= m')%Q
  | None, Some _ => False
  end.

(** An offer as the response carries it: a mapping with a price. *)
Definition priced_offer (o : value) : Prop :=
  ∃ m v, o = VDict m ∧ m !! "price" = Some v.

(* ===================================================================== *)
(** ** Stores used as examples *)
(* ===================================================================== *)

(** The list a run returned (empty if it did not return). *)
Definition returned (r : option database * result (list hotel)) : list hotel :=
  match r.2 with
  | Ok hs => hs
  | _ => []
  end.

(** A store whose hotel collection holds [docs], and the handle to it. *)
Definition store_of (docs : list document) : database :=
  {| collections := {["hotel" := docs]}; next_oid := N.of_nat (length docs) |}.

Definition db_of (docs : list document) : option database := Some (store_of docs).

(** A hotel priced above [1e9], and one without offers. *)
Definition pricey_hotel : document :=
  list_to_map [
    ("_id", VOid 0);
    ("name", VStr "Orbital Suite");
    ("location", VStr "Low Earth Orbit");
    ("rating", VFloat (19 # 2));
    ("reviews", VInt 3);
    ("image", VStr "https://example.org/orbital.jpg");
    ("offers", VList [offer "Direct" 2000000000])
  ].

Definition unlisted_hotel : document :=
  list_to_map [
    ("_id", VOid 1);
    ("name", VStr "Closed Inn");
    ("location", VStr "Nowhere");
    ("rating", VFloat (7 # 1));
    ("reviews", VInt 12);
    ("image", VStr "https://example.org/closed.jpg");
    ("offers", VList [])
  ].

(** What the handler returns for them. *)
Definition pricey_listing : hotel := {|
  id := VOid 0;
  name := VStr "Orbital Suite";
  location := VStr "Low Earth Orbit";
  rating := 19 # 2;
  reviews := 3;
  image := VStr "https://example.org/orbital.jpg";
  offers := VList [offer "Direct" 2000000000];
|}.

Definition unlisted_listing : hotel := {|
  id := VOid 1;
  name := VStr "Closed Inn";
  location := VStr "Nowhere";
  rating := 7 # 1;
  reviews := 12;
  image := VStr "https://example.org/closed.jpg";
  offers := VList [];
|}.

(** A record whose rating is stored as [null]. *)
Definition null_rating_hotel : document :=
  list_to_map [
    ("_id", VOid 0);
    ("name", VStr "Unrated Hostel");
    ("location", VStr "Lisbon, Portugal");
    ("rating", VNone);
    ("reviews", VInt 40);
    ("image", VStr "https://example.org/unrated.jpg");
    ("offers", VList [offer "Booking.com" 35])
  ].

(** A record with an offer that has no price. *)
Definition unpriced_offer_hotel : document :=
  list_to_map [
    ("_id", VOid 0);
    ("name", VStr "Harbour Hotel");
    ("location", VStr "Oslo, Norway");
    ("rating", VFloat (8 # 1));
    ("reviews", VInt 210);
    ("image", VStr "https://example.org/harbour.jpg");
    ("offers", VList [VDict (list_to_map [("name", VStr "Booking.com")]); offer "Expedia" 140])
  ].

(** A record with nothing but a name. *)
Definition bare_hotel : document :=
  list_to_map [("_id", VOid 0); ("name", VStr "Bare Rooms")].

(** A record whose first offer is priced NaN and whose second costs 500,
    and what the handler returns for it. *)
Definition nan_offer_hotel : document :=
  list_to_map [
    ("_id", VOid 0);
    ("name", VStr "Drift Hotel");
    ("location", VStr "Bergen, Norway");
    ("rating", VFloat (8 # 1));
    ("reviews", VInt 64);
    ("image", VStr "https://example.org/drift.jpg");
    ("offers", VList [VDict (list_to_map [("name", VStr "Agoda"); ("price", VNaN)]);
                      offer "Expedia" 500])
  ].

Definition nan_offer_listing : hotel := {|
  id := VOid 0;
  name := VStr "Drift Hotel";
  location := VStr "Bergen, Norway";
  rating := 8 # 1;
  reviews := 64;
  image := VStr "https://example.org/drift.jpg";
  offers := VList [VDict (list_to_map [("name", VStr "Agoda"); ("price", VNaN)]);
                   offer "Expedia" 500];
|}.

(** Offers of which one has no price and another a negative one. *)
Definition refund_offers : list value :=
  [VDict (list_to_map [("name", VStr "Booking.com")]); offer "Voucher" (-5)].
(* ===================================================================== *)
(** ** Reasoning about outcomes *)
(* ===================================================================== *)

Section Outcomes.
Context {A B : Type}.
Implicit Types (r : result A) (f : A → result B).

Lemma bind_Ok r f b : r ≫= f = Ok b → ∃ a, r = Ok a ∧ f a = Ok b.
Proof. destruct r as [a| |]; [eauto | discriminate | discriminate]. Qed.

Lemma bind_Ok_intro r f a : r = Ok a → r ≫= f = f a.
Proof. by intros ->. Qed.

End Outcomes.

(** Splits every hypothesis [c ≫= k = Ok b] into the run of [c] and the
    run of [k]. *)
Ltac inv_ok :=
  repeat match goal with
         | H : Ok _ = Ok _ |- _ => injection H as H; first [discriminate H | try subst]
         | H : Raise _ = Ok _ |- _ => discriminate H
         | H : Unmodelled = Ok _ |- _ => discriminate H
         | H : mret _ = Ok _ |- _ => injection H as H; first [discriminate H | try subst]
         | H : _ ≫= _ = Ok _ |- _ =>
             let a := fresh "a" in
             let Ha := fresh "Ha" in
             apply bind_Ok in H as (a & Ha & H)
         end.

Section MapM.
Context {A B : Type} (f : A → result B).

Lemma mapM_Ok l k : mapM f l = Ok k → Forall2 (fun x y => f x = Ok y) l k.
Proof.
  revert k; induction l as [|x l IH]; intros k H; simpl in H.
  - injection H as <-. constructor.
  - inv_ok. constructor; auto.
Qed.

Lemma mapM_Ok_2 l k : Forall2 (fun x y => f x = Ok y) l k → mapM f l = Ok k.
Proof.
  induction 1 as [|x y l k Hx _ IH]; [done|].
  simpl. rewrite Hx. simpl. by rewrite IH.
Qed.

Lemma mapM_Ok_length l k : mapM f l = Ok k → length l = length k.
Proof. intros H. by eapply Forall2_length, mapM_Ok. Qed.

End MapM.

Lemma mapM_Ok_ext {A B} (f g : A → result B) l k :
  mapM f l = Ok k → Forall (fun x => ∀ y, f x = Ok y → g x = Ok y) l → mapM g l = Ok k.
Proof.
  intros H%mapM_Ok Hl. apply mapM_Ok_2.
  induction H as [|x y l k Hx _ IH]; [constructor|].
  apply Forall_cons in Hl as [Hg Hl]. constructor; auto.
Qed.

(* ===================================================================== *)
(** ** Comparison and minimum on numbers *)
(* ===================================================================== *)

Lemma Qlt_bool_iff q r : Qlt_bool q r = true ↔ (q < r)%Q.
Proof.
  unfold Qlt_bool. rewrite negb_true_iff, <- not_true_iff_false, Qle_bool_iff.
  split; [apply Qnot_le_lt | apply Qlt_not_le].
Qed.

Lemma Qlt_bool_false q r : Qlt_bool q r = false ↔ (r <= q)%Q.
Proof. unfold Qlt_bool. by rewrite negb_false_iff, Qle_bool_iff. Qed.

Lemma Qlt_bool_inject_Z x y : Qlt_bool (inject_Z x) (inject_Z y) = (x <? y).
Proof.
  unfold Qlt_bool, Qle_bool. simpl. rewrite !Z.mul_1_r.
  by rewrite Z.ltb_antisym.
Qed.

(** On two numbers [<] is the order of the rationals. *)
Lemma lt_num a b q r :
  num_of a = Some q → num_of b = Some r → lt a b = Ok (Qlt_bool q r).
Proof.
  destruct a, b; simpl; intros [= <-] [= <-]; try done.
  by rewrite Qlt_bool_inject_Z.
Qed.

Lemma lt_Ok_same_kind a b c : lt a b = Ok c → same_kind a b.
Proof. destruct a, b; simpl; done. Qed.

(** The scan of [min] over numbers returns the least of them. *)
Lemma min_from_num l : ∀ best q qs,
  num_of best = Some q → mapM num_of l = Some qs →
  ∃ v, min_from best l = Ok v ∧ num_of v = Some (foldl price_min q qs).
Proof.
  induction l as [|x l IH]; intros best q qs Hq Hl; simpl in *.
  - injection Hl as <-. eauto.
  - destruct (num_of x) as [qx|] eqn:Hx; [|done]. simpl in Hl.
    destruct (mapM num_of l) as [qs'|] eqn:Hqs; [|done].
    injection Hl as <-. simpl.
    rewrite (lt_num x best qx q) by done. simpl.
    apply IH; [|done]. unfold price_min. by destruct (Qlt_bool qx q).
Qed.

(* ===================================================================== *)
(** ** The sort *)
(* ===================================================================== *)

Lemma rank_of_num a q : num_of a = Some q → rank_of a = Some (Finite q).
Proof. destruct a; simpl; congruence. Qed.

#[local] Instance rank_le_trans : Transitive rank_le.
Proof.
  intros [|q|] [|r|] [|t|]; simpl; try done. apply Qle_trans.
Qed.

#[local] Instance key_le_trans : Transitive key_le.
Proof.
  intros a b c. unfold key_le.
  destruct (rank_of a) as [x|] eqn:Ha, (rank_of b) as [y|] eqn:Hb,
    (rank_of c) as [z|] eqn:Hc; try done.
  - apply rank_le_trans.
  - intros (Hab & Hna & _) (Hbc & _ & Hnc). split; [|done].
    destruct a, b, c; done.
Qed.

Lemma lt_true_key_le a b : lt a b = Ok true → key_le a b.
Proof.
  intros H. unfold key_le.
  destruct (num_of a) as [q|] eqn:Ha, (num_of b) as [r|] eqn:Hb.
  - rewrite (lt_num a b q r) in H by done. injection H as H.
    rewrite (rank_of_num a q), (rank_of_num b r) by done.
    by apply Qlt_le_weak, Qlt_bool_iff.
  - rewrite (rank_of_num a q) by done.
    destruct a, b as [| | | | | | | |[]]; done.
  - rewrite (rank_of_num b r) by done.
    destruct a as [| | | | | | | |[]], b; done.
  - destruct a as [| | | | | | | |[]], b as [| | | | | | | |[]]; done.
Qed.

Lemma lt_false_key_le a b :
  lt a b = Ok false → is_nan a = false → is_nan b = false → key_le b a.
Proof.
  intros H Hna Hnb. unfold key_le.
  destruct (num_of a) as [q|] eqn:Ha, (num_of b) as [r|] eqn:Hb.
  - rewrite (lt_num a b q r) in H by done. injection H as H.
    rewrite (rank_of_num a q), (rank_of_num b r) by done.
    by apply Qlt_bool_false.
  - rewrite (rank_of_num a q) by done.
    destruct a, b as [| | | | | | | |[]]; done.
  - rewrite (rank_of_num b r) by done.
    destruct a as [| | | | | | | |[]], b; done.
  - destruct a as [| | | | | | | |[]], b as [| | | | | | | |[]]; done.
Qed.

Section SortFacts.
Context {A : Type}.
Implicit Types (kx : value * A) (l s : list (value * A)).

Lemma insert_by_key_perm kx l s : insert_by_key kx l = Ok s → s ≡ₚ kx :: l.
Proof.
  revert s; induction l as [|ky l IH]; intros s H; simpl in H.
  - by injection H as <-.
  - inv_ok. destruct a.
    + inv_ok. rewrite (IH _ Ha0). apply Permutation_swap.
    + by inv_ok.
Qed.

Lemma sort_keyed_perm l s : sort_keyed l = Ok s → s ≡ₚ l.
Proof.
  revert s; induction l as [|kx l IH]; intros s H; simpl in H.
  - by injection H as <-.
  - inv_ok. rewrite (insert_by_key_perm _ _ _ H). by rewrite (IH _ Ha).
Qed.

Lemma insert_by_key_sorted kx l s :
  insert_by_key kx l = Ok s →
  is_nan kx.1 = false → Forall (fun ky => is_nan ky.1 = false) l →
  StronglySorted keyed_le l → StronglySorted keyed_le s.
Proof.
  revert s; induction l as [|ky l IH]; intros s H Hkx Hnan Hl; simpl in H.
  - injection H as <-. repeat constructor.
  - apply StronglySorted_cons in Hl as [Hky Hl].
    apply Forall_cons in Hnan as [Hnky Hnan].
    inv_ok. destruct a.
    + inv_ok. apply StronglySorted_cons. split; [|by eapply IH].
      rewrite (insert_by_key_perm _ _ _ Ha0).
      constructor; [|done]. by apply lt_true_key_le.
    + inv_ok. apply lt_false_key_le in Ha; [|done..].
      apply StronglySorted_cons. split.
      * constructor; [done|].
        eapply Forall_impl; [done|]. intros kz Hz.
        unfold keyed_le in *. by etrans.
      * by apply StronglySorted_cons.
Qed.

Lemma sort_keyed_sorted l s :
  sort_keyed l = Ok s → Forall (fun kx => is_nan kx.1 = false) l →
  StronglySorted keyed_le s.
Proof.
  revert s; induction l as [|kx l IH]; intros s H Hnan; simpl in H.
  - injection H as <-. constructor.
  - apply Forall_cons in Hnan as [Hkx Hnan]. inv_ok.
    eapply insert_by_key_sorted; [done|done| |by eapply IH].
    by rewrite (sort_keyed_perm _ _ Ha).
Qed.

(** What [sort] returns: the items in another order, each beside its
    key; the keys ascending when none of them is NaN. *)
Lemma sort_Ok (key : A → result value) (l r : list A) :
  sort key l = Ok r →
  r ≡ₚ l ∧
  ∃ s, r = s.*2 ∧ Forall (fun kx => key kx.2 = Ok kx.1) s ∧
       (Forall (fun kx => is_nan kx.1 = false) s → StronglySorted keyed_le s).
Proof.
  unfold sort. intros H.
  apply bind_Ok in H as (ks & Ha & H).
  destruct (nan_among ks); [done|].
  apply bind_Ok in H as (s & Ha0 & H). injection H as <-.
  pose proof (mapM_Ok_length _ _ _ Ha) as Hlen.
  split.
  - rewrite (sort_keyed_perm _ _ Ha0). by rewrite snd_zip by lia.
  - exists s. split; [done|]. split.
    2:{ intros Hnan. eapply sort_keyed_sorted; [done|].
        by rewrite <- (sort_keyed_perm _ _ Ha0). }
    rewrite (sort_keyed_perm _ _ Ha0).
    apply mapM_Ok in Ha. clear -Ha.
    induction Ha; simpl; constructor; auto.
Qed.
End SortFacts.

Lemma StronglySorted_lookup {A} (R : relation A) (l : list A) i j x y :
  StronglySorted R l → (i < j)%nat → l !! i = Some x → l !! j = Some y → R x y.
Proof.
  intros Hl; revert i j; induction Hl as [|z l Hl IH Hz]; intros i j Hij Hi Hj.
  - done.
  - destruct j as [|j]; [lia|]. destruct i as [|i]; simpl in *.
    + injection Hi as ->. eapply Forall_forall in Hz; [done|].
      by eapply list_elem_of_lookup_2.
    + eapply (IH i j); [lia|done..].
Qed.
(* ===================================================================== *)
(** ** The store *)
(* ===================================================================== *)

Lemma matches_empty d : matches ∅ d = Ok true.
Proof. unfold matches. by rewrite map_to_list_empty. Qed.

Lemma find_empty docs : find ∅ docs = Ok docs.
Proof.
  induction docs as [|d ds IH]; [done|].
  simpl. rewrite matches_empty. simpl. by rewrite IH.
Qed.

(** [find] keeps the matching documents, in their stored order. *)
Lemma find_Ok f docs r :
  find f docs = Ok r → r `sublist_of` docs ∧ Forall (fun d => matches f d = Ok true) r.
Proof.
  revert r; induction docs as [|d ds IH]; intros r H; simpl in H.
  - injection H as <-. by split.
  - inv_ok. destruct (IH _ Ha0) as [Hsub Hall]. destruct a.
    + split; [by constructor | by constructor].
    + split; [by constructor | done].
Qed.

Lemma create_each_spec hs : ∀ s,
  ∃ s', create_each hs (Some s) = (Some s', Ok tt) ∧
        collection s' "hotel" =
          collection s "hotel" ++ imap (fun i h => <["_id" := VOid (next_oid s + N.of_nat i)]> h) hs ∧
        (hs = [] → s' = s).
Proof.
  induction hs as [|h hs IH]; intros s.
  - exists s. simpl. by rewrite app_nil_r.
  - set (s1 := {| collections := <["hotel" := collection s "hotel" ++ [<["_id" := VOid (next_oid s)]> h]]> (collections s);
                  next_oid := N.succ (next_oid s) |}).
    destruct (IH s1) as (s' & Hrun & Hcoll & _).
    exists s'. split; [|split; [|done]].
    + simpl. unfold mbind, M_bind, create_document. fold s1. exact Hrun.
    + rewrite Hcoll. unfold collection at 1. subst s1; simpl.
      rewrite lookup_insert_eq. simpl. rewrite <- app_assoc. f_equal. simpl.
      f_equal; [by rewrite N.add_0_r|].
      apply imap_ext. intros i x _. simpl. do 2 f_equal. lia.
Qed.

(** The seed step leaves a collection that is not empty alone, and fills
    an empty one with the demo records; it never fails. *)
Lemma ensure_seed_nonempty s :
  collection s "hotel" ≠ [] → _ensure_seed_hotels (Some s) = (Some s, Ok tt).
Proof.
  intros Hne. unfold _ensure_seed_hotels, mbind, M_bind, handle, count_documents.
  rewrite find_empty. simpl.
  destruct (collection s "hotel") as [|d ds]; [done|]. done.
Qed.

Lemma ensure_seed_empty s :
  collection s "hotel" = [] →
  ∃ s', _ensure_seed_hotels (Some s) = (Some s', Ok tt) ∧
        collection s' "hotel" = seed_docs (next_oid s).
Proof.
  intros He. destruct (create_each_spec sample_hotels s) as (s' & Hrun & Hcoll & _).
  exists s'. split.
  - unfold _ensure_seed_hotels, mbind, M_bind, handle, count_documents.
    rewrite find_empty, He. simpl. exact Hrun.
  - by rewrite Hcoll, He.
Qed.

Lemma ensure_seed_run db :
  ∃ db', _ensure_seed_hotels db = (db', Ok tt) ∧ (is_Some db ↔ is_Some db').
Proof.
  destruct db as [s|].
  - destruct (collection s "hotel") as [|d ds] eqn:He.
    + destruct (ensure_seed_empty s He) as (s' & -> & _). eexists. split; [done|].
      split; eauto.
    + rewrite ensure_seed_nonempty by (by rewrite He). eauto.
  - exists None. split; [done|]. split; intros [? ?]; done.
Qed.

(* ===================================================================== *)
(** ** The shape of a run of [list_hotels] *)
(* ===================================================================== *)

(** After the seed step the handler reads the store once and then works on
    what it fetched. *)
Lemma list_hotels_seeded destination max_price min_rating limit db s :
  _ensure_seed_hotels db = (Some s, Ok tt) →
  list_hotels destination max_price min_rating limit db =
    (Some s,
     all ← find (base_filter destination min_rating) (collection s "hotel");
     hotels ← project_all max_price (take (Z.to_nat limit) all);
     sort sort_key hotels).
Proof.
  intros Hseed. unfold list_hotels, mbind at 1, M_bind at 1. rewrite Hseed.
  unfold mbind at 1, M_bind at 1, get_documents.
  destruct (find _ _) as [all| |]; simpl; [|done..].
  unfold mbind at 1, M_bind at 1, pure.
  by destruct (project_all _ _) as [hs| |].
Qed.

Lemma list_hotels_unreachable destination max_price min_rating limit :
  list_hotels destination max_price min_rating limit None = (None, Raise ServiceUnavailable).
Proof. done. Qed.

(** A run that returns a list. *)
Lemma list_hotels_Ok destination max_price min_rating limit db db' hs :
  list_hotels destination max_price min_rating limit db = (db', Ok hs) →
  ∃ s all hotels,
    _ensure_seed_hotels db = (Some s, Ok tt) ∧ db' = Some s ∧
    find (base_filter destination min_rating) (collection s "hotel") = Ok all ∧
    project_all max_price (take (Z.to_nat limit) all) = Ok hotels ∧
    sort sort_key hotels = Ok hs.
Proof.
  intros H. destruct (ensure_seed_run db) as (db1 & Hseed & Hsome).
  destruct db1 as [s|].
  - rewrite (list_hotels_seeded _ _ _ _ _ _ Hseed) in H.
    injection H as <- H. inv_ok. eauto 10.
  - destruct db as [s|]; [destruct Hsome as [[]%is_Some_None _]; eauto|].
    rewrite list_hotels_unreachable in H. done.
Qed.
(* ===================================================================== *)
(** ** Offers and prices *)
(* ===================================================================== *)

(** Nothing is visited in a falsy value. *)
Lemma iter_falsy v os : truthy v = false → iter v = Ok os → os = [].
Proof.
  destruct v as [| | |s| |l|m| |]; simpl; try done.
  - intros Hs [= <-]. apply negb_false_iff, String.eqb_eq in Hs. by subst.
  - destruct l; [|done]. by intros _ [= <-].
  - intros Hm [= <-]. apply negb_false_iff, Nat.eqb_eq, map_size_empty_iff in Hm.
    subst. by rewrite map_to_list_empty.
Qed.

(** A truthy value whose items all answer [o.get] is a non-empty list. *)
Lemma iter_truthy_get v os vs :
  truthy v = true → iter v = Ok os →
  mapM (fun o => get o "price" (VInt 0)) os = Ok vs →
  v = VList os ∧ os ≠ [].
Proof.
  destruct v as [| | |s| |l|m| |]; simpl; try done.
  - intros Hs [= <-]. destruct s as [|c s]; [done|]. simpl. done.
  - intros Hl [= <-] _. by destruct l.
  - intros Hm [= <-].
    destruct (map_to_list m) as [|[k x] kxs] eqn:Hkx; [|done].
    apply map_to_list_empty_iff in Hkx. subst. by rewrite map_size_empty in Hm.
Qed.

(** A priced offer answers [o["price"]] and [o.get("price", 0)] alike. *)
Lemma getitem_get o v : getitem o "price" = Ok v → get o "price" (VInt 0) = Ok v.
Proof.
  destruct o as [| | | | | |m| |]; simpl; try done.
  by destruct (m !! "price"); intros [= <-].
Qed.

Lemma offer_price_getitem o q :
  offer_price o = Some q → ∃ v, getitem o "price" = Ok v ∧ num_of v = Some q.
Proof.
  destruct o as [| | | | | |m| |]; simpl; try done.
  destruct (m !! "price") as [v|]; simpl; [|done]. eauto.
Qed.

Lemma getitem_offer_price o v :
  getitem o "price" = Ok v → offer_price_typed o = true → is_Some (offer_price o).
Proof.
  destruct o as [| | | | | |m| |]; simpl; try done.
  destruct (m !! "price") as [w|]; simpl; [|done].
  intros [= <-]. destruct w; simpl; try done; eauto.
Qed.

Lemma mapM_offer_price os qs :
  mapM offer_price os = Some qs →
  ∃ vs, mapM (fun o => getitem o "price") os = Ok vs ∧ mapM num_of vs = Some qs.
Proof.
  intros H%mapM_Some. induction H as [|o q os qs Ho _ (vs & Hvs & Hqs)].
  - by exists [].
  - apply offer_price_getitem in Ho as (v & Hv & Hq).
    exists (v :: vs). simpl. rewrite Hv. simpl. rewrite Hvs. simpl.
    by rewrite Hq, Hqs.
Qed.

Lemma mapM_getitem_typed os vs :
  mapM (fun o => getitem o "price") os = Ok vs →
  forallb offer_price_typed os = true →
  is_Some (mapM offer_price os).
Proof.
  intros H%mapM_Ok Ht. apply Is_true_true_2, forallb_True in Ht.
  rewrite Forall_forall in Ht.
  induction H as [|o v os vs Ho _ IH]; [by eexists|].
  destruct (getitem_offer_price _ _ Ho) as [q Hq]; [apply Is_true_true, Ht; left|].
  destruct IH as [qs Hqs]; [intros x Hx; apply Ht; by right|].
  exists (q :: qs). simpl. by rewrite Hq, Hqs.
Qed.

(** A truthy value whose items all answer [o["price"]] is a non-empty
    list of priced offers. *)
Lemma iter_truthy_getitem v os vs :
  truthy v = true → iter v = Ok os →
  mapM (fun o => getitem o "price") os = Ok vs →
  v = VList os ∧ os ≠ [] ∧ Forall priced_offer os.
Proof.
  intros Ht Hi Hvs.
  assert (Forall priced_offer os) as Hall.
  { apply mapM_Ok in Hvs. clear -Hvs.
    induction Hvs as [|o w os vs Ho _ IH]; constructor; [|done].
    destruct o as [| | | | | |m| |]; simpl in Ho; try done.
    destruct (m !! "price") as [x|] eqn:Hx; [|done]. by exists m, x. }
  destruct v as [| | |s| |l|m| |]; simpl in *; try done.
  - injection Hi as <-. destruct s as [|c s]; [done|].
    apply Forall_cons in Hall as [(m & x & Hm & _) _]. done.
  - injection Hi as <-. by destruct l.
  - injection Hi as <-.
    destruct (map_to_list m) as [|[k x] kxs] eqn:Hkx.
    + apply map_to_list_empty_iff in Hkx. subst. by rewrite map_size_empty in Ht.
    + apply Forall_cons in Hall as [(m' & x' & Hm & _) _]. done.
Qed.

(** What the scan of [min] returns is one of the values scanned. *)
Lemma min_from_in l : ∀ best v, min_from best l = Ok v → v = best ∨ v ∈ l.
Proof.
  induction l as [|x l IH]; intros best v H; simpl in H.
  - injection H as <-. by left.
  - apply bind_Ok in H as (b & _ & H). destruct (IH _ _ H) as [->|Hin].
    + destruct b; [right; by left | by left].
    + right. by right.
Qed.

Lemma getitem_price_nan o v : getitem o "price" = Ok v → offer_price_nan o = is_nan v.
Proof.
  destruct o as [| | | | | |m| |]; simpl; try done.
  destruct (m !! "price"); [|done]. by intros [= ->].
Qed.

(** Without a NaN among the prices of a hotel its sort key is not NaN. *)
Lemma sort_key_not_nan h k :
  nan_priced h = false → sort_key h = Ok k → is_nan k = false.
Proof.
  unfold nan_priced, sort_key. intros Hn Hk.
  destruct (truthy (offers h)) eqn:Ht; [|by injection Hk as <-].
  apply bind_Ok in Hk as (os & Hos & Hk). apply bind_Ok in Hk as (vs & Hvs & Hk).
  destruct (iter_truthy_getitem _ _ _ Ht Hos Hvs) as (Hoff & _ & _).
  rewrite Hoff in Hn.
  assert (Forall (fun v => is_nan v = false) vs) as Hall.
  { apply mapM_Ok in Hvs. clear -Hvs Hn.
    induction Hvs as [|o v os vs Ho _ IH]; [done|].
    simpl in Hn. apply orb_false_iff in Hn as [Hx Hn].
    constructor; [by rewrite <- (getitem_price_nan _ _ Ho) | auto]. }
  destruct vs as [|v vs]; [done|]. simpl in Hk.
  apply Forall_cons in Hall as [Hv Hall].
  apply min_from_in in Hk as [->|Hin]; [done|].
  rewrite Forall_forall in Hall. by apply Hall.
Qed.

(** The keys of a response without a NaN price. *)
Lemma nan_free_keys (srt : list (value * hotel)) :
  Forall (fun kx => sort_key kx.2 = Ok kx.1) srt → nan_free (srt.*2) →
  Forall (fun kx => is_nan kx.1 = false) srt.
Proof.
  unfold nan_free. rewrite Forall_fmap, !Forall_forall.
  intros Hkeys Hfree kx Hin.
  eapply sort_key_not_nan; [apply Hfree, Hin | apply Hkeys, Hin].
Qed.

(** The sort key of a hotel that has a rank price is that price. *)
Lemma sort_key_price_key h p :
  price_key h = Some p → ∃ k, sort_key h = Ok k ∧ num_of k = Some p.
Proof.
  unfold price_key, sort_key. destruct (truthy (offers h)) eqn:Ht.
  - unfold cheapest_price. destruct (offers h) as [| | | | |[|o os]| | |]; try done.
    simpl. destruct (offer_price o) as [q|] eqn:Ho; [|done]. simpl.
    destruct (mapM offer_price os) as [qs|] eqn:Hos; [|done]. simpl.
    intros [= <-].
    apply offer_price_getitem in Ho as (v & Hv & Hq).
    apply mapM_offer_price in Hos as (vs & Hvs & Hqs).
    rewrite Hv. simpl. rewrite Hvs. simpl.
    by apply min_from_num.
  - intros [= <-]. by eexists.
Qed.

(** So is the best price the filter computes. *)
Lemma best_price_cheapest h p :
  cheapest_price h = Some p → ∃ v, best_price (offers h) = Ok v ∧ num_of v = Some p.
Proof.
  unfold cheapest_price, best_price.
  destruct (offers h) as [| | | | |[|o os]| | |]; try done.
  simpl. destruct (offer_price o) as [q|] eqn:Ho; [|done]. simpl.
  destruct (mapM offer_price os) as [qs|] eqn:Hos; [|done]. simpl.
  intros [= <-].
  apply offer_price_getitem in Ho as (v & Hv%getitem_get & Hq).
  apply mapM_offer_price in Hos as (vs & Hvs & Hqs).
  rewrite Hv. simpl.
  erewrite mapM_Ok_ext; [|exact Hvs|].
  - simpl. by apply min_from_num.
  - apply Forall_forall. intros x _ y. apply getitem_get.
Qed.

(** The least price is the price of an offer, and no offer is cheaper. *)
Lemma foldl_price_min_le qs : ∀ p, (foldl price_min p qs <= p)%Q ∧
  Forall (fun q => (foldl price_min p qs <= q)%Q) qs ∧
  (foldl price_min p qs = p ∨ foldl price_min p qs ∈ qs).
Proof.
  induction qs as [|q qs IH]; intros p; simpl.
  - split; [apply Qle_refl|]. split; [constructor | by left].
  - destruct (IH (price_min p q)) as (Hle & Hall & Hin).
    assert (price_min p q <= p ∧ price_min p q <= q)%Q as [Hp Hq].
    { unfold price_min. destruct (Qlt_bool q p) eqn:E.
      - apply Qlt_bool_iff in E. split; [by apply Qlt_le_weak | apply Qle_refl].
      - apply Qlt_bool_false in E. split; [apply Qle_refl | done]. }
    split; [by eapply Qle_trans|]. split.
    + constructor; [by eapply Qle_trans | done].
    + destruct Hin as [->|Hin]; [|right; by right].
      unfold price_min. destruct (Qlt_bool q p); [right; by left | by left].
Qed.

Lemma cheapest_price_spec h p :
  cheapest_price h = Some p →
  ∃ os, offers h = VList os ∧
        (∃ o, o ∈ os ∧ offer_price o = Some p) ∧
        (∀ o, o ∈ os → ∃ q, offer_price o = Some q ∧ (p <= q)%Q).
Proof.
  unfold cheapest_price. destruct (offers h) as [| | | | |[|o os]| | |]; try done.
  destruct (offer_price o) as [q0|] eqn:Ho; [|done]. simpl.
  destruct (mapM offer_price os) as [qs|] eqn:Hos; [|done]. simpl.
  intros [= <-]. exists (o :: os). split; [done|].
  destruct (foldl_price_min_le qs q0) as (Hle & Hall & Hin).
  apply mapM_Some in Hos. split.
  - destruct Hin as [->|Hin].
    + exists o. split; [by left | done].
    + apply list_elem_of_lookup in Hin as [i Hi].
      destruct (Forall2_lookup_r _ _ _ _ _ Hos Hi) as (o' & Ho' & Hq).
      exists o'. split; [right; by eapply list_elem_of_lookup_2 | done].
  - intros o' [->|Ho']%elem_of_cons; [eauto|].
    apply list_elem_of_lookup in Ho' as [i Hi].
    destruct (Forall2_lookup_l _ _ _ _ _ Hos Hi) as (q & Hq & Ho'').
    exists q. split; [done|].
    eapply Forall_forall in Hall; [done|]. by eapply list_elem_of_lookup_2.
Qed.
(* ===================================================================== *)
(** ** The loop over the fetched documents *)
(* ===================================================================== *)

(** What the loop appends for a document it keeps. *)
Lemma project_Some max_price d h :
  project max_price d = Ok (Some h) →
  offers h = default (VList []) (d !! "offers") ∧
  location h = default VNone (d !! "location") ∧
  name h = default VNone (d !! "name") ∧
  float (default (VInt 0) (d !! "rating")) = Ok (rating h) ∧
  int (default (VInt 0) (d !! "reviews")) = Ok (reviews h) ∧
  ∃ best, best_price (offers h) = Ok best ∧ over_max_price max_price best = Ok false.
Proof.
  unfold project. intros H. inv_ok. rename a into best, a0 into over.
  destruct over; inv_ok. simpl. eauto 10.
Qed.

Lemma project_all_Ok max_price docs hs :
  project_all max_price docs = Ok hs →
  Forall (fun h => ∃ d, d ∈ docs ∧ project max_price d = Ok (Some h)) hs ∧
  (length hs ≤ length docs)%nat ∧
  Forall (fun d => ∃ oh, project max_price d = Ok oh ∧ ∀ h, oh = Some h → h ∈ hs) docs.
Proof.
  revert hs; induction docs as [|d ds IH]; intros hs H; simpl in H.
  - injection H as <-. repeat split; constructor.
  - inv_ok. rename a into oh, a0 into hs'.
    destruct (IH _ Ha0) as (Hfrom & Hlen & Hto).
    assert (∀ h, h ∈ hs' → h ∈ from_option (fun x => x :: hs') hs' oh) as Hincl.
    { intros h Hh. destruct oh; simpl; [by right | done]. }
    repeat split.
    + assert (Forall (fun h => ∃ d0, d0 ∈ d :: ds ∧ project max_price d0 = Ok (Some h)) hs') as Hfrom'.
      { eapply Forall_impl; [done|]. intros h (d0 & Hd0 & Hp). exists d0. split; [by right | done]. }
      destruct oh as [h|]; simpl; [|done].
      constructor; [|done]. exists d. split; [by left | done].
    + destruct oh; simpl; lia.
    + constructor.
      * exists oh. split; [done|]. intros h ->. simpl. by left.
      * eapply Forall_impl; [done|]. intros d0 (oh0 & Hp & Hin).
        exists oh0. split; [done|]. intros h Hh. by apply Hincl, Hin.
Qed.

(** A document without offers passes the price filter. *)
Lemma project_no_offers max_price d oh :
  truthy (default (VList []) (d !! "offers")) = false →
  project max_price d = Ok oh →
  ∃ h, oh = Some h ∧ project None d = Ok (Some h).
Proof.
  intros Hf H. unfold project in *.
  apply bind_Ok in H as (best & Hbest & H).
  apply bind_Ok in H as (over & Hover & H).
  assert (best = VNone) as ->.
  { unfold best_price in Hbest.
    apply bind_Ok in Hbest as (os & Hos & Hbest).
    apply (iter_falsy _ _ Hf) in Hos as ->. simpl in Hbest. by injection Hbest. }
  assert (over = false) as ->.
  { destruct max_price; simpl in Hover; by injection Hover. }
  rewrite Hbest. simpl.
  apply bind_Ok in H as (r & Hr & H). apply bind_Ok in H as (n & Hn & H).
  rewrite Hr, Hn. simpl. injection H as <-. eauto.
Qed.

(** The seed records are typed, so seeding keeps a typed store typed. *)
Lemma prices_typed_insert_id d v : prices_typed (<["_id" := v]> d) = prices_typed d.
Proof. unfold prices_typed. by rewrite lookup_insert_ne. Qed.

Lemma seed_docs_typed n : Forall (fun d => prices_typed d = true) (seed_docs n).
Proof.
  unfold seed_docs, sample_hotels. simpl.
  repeat constructor; rewrite prices_typed_insert_id; by vm_compute.
Qed.

Lemma ensure_seed_typed db s :
  db_prices_typed db → _ensure_seed_hotels db = (Some s, Ok tt) →
  Forall (fun d => prices_typed d = true) (collection s "hotel").
Proof.
  intros Ht Hseed. destruct db as [s0|]; [|done].
  destruct (collection s0 "hotel") as [|d ds] eqn:He.
  - destruct (ensure_seed_empty s0 He) as (s' & Hs' & Hcoll).
    rewrite Hs' in Hseed. injection Hseed as <-. rewrite Hcoll. apply seed_docs_typed.
  - rewrite ensure_seed_nonempty in Hseed by (by rewrite He).
    injection Hseed as <-. by apply Ht.
Qed.

(** A returned hotel with offers, from a typed record: its cheapest offer
    is within the maximum. *)
Lemma kept_hotel_price m d h k :
  project (Some m) d = Ok (Some h) → prices_typed d = true →
  sort_key h = Ok k → truthy (offers h) = true →
  ∃ p, cheapest_price h = Some p ∧ (p <= m)%Q.
Proof.
  intros (Hoff & _ & _ & _ & _ & best & Hbest & Hover)%project_Some Htyped Hkey Ht.
  unfold sort_key in Hkey. rewrite Ht in Hkey. inv_ok. rename a into os, a0 into ps.
  assert (offers h = VList os ∧ os ≠ []) as [Hos Hne].
  { unfold best_price in Hbest. rewrite Ha in Hbest. simpl in Hbest. inv_ok.
    by eapply iter_truthy_get. }
  assert (forallb offer_price_typed os = true) as Htos.
  { unfold prices_typed in Htyped. rewrite Hoff in Hos.
    destruct (d !! "offers") as [v|]; simpl in Hos; [by subst | congruence]. }
  destruct (mapM_getitem_typed _ _ Ha0 Htos) as [qs Hqs].
  assert (∃ p, cheapest_price h = Some p) as [p Hp].
  { unfold cheapest_price. rewrite Hos. destruct os as [|o os']; [done|].
    simpl in Hqs. destruct (offer_price o); [|done]. simpl in *.
    destruct (mapM offer_price os'); [|done]. simpl. eauto. }
  exists p. split; [done|].
  destruct (best_price_cheapest _ _ Hp) as (v & Hv & Hnum).
  rewrite Hbest in Hv. injection Hv as <-.
  assert (gt best (VFloat m) = Ok false) as Hgt by (by destruct best).
  unfold gt in Hgt. rewrite (lt_num (VFloat m) best m p) in Hgt by done.
  injection Hgt as Hgt. by apply Qlt_bool_false.
Qed.

(* ===================================================================== *)
(** ** The maximum price *)
(* ===================================================================== *)

(** C1, as stated, fails: with [max_price = 4] a hotel is returned whose
    offers are priced NaN and 500.  [min] keeps the NaN it meets first,
    no number compares greater than NaN, and the filter lets the hotel
    through. *)
Lemma nan_price_passes_max_price :
  ∃ hs h,
    (list_hotels None (Some (4 # 1)) None 20 (db_of [nan_offer_hotel])).2 = Ok hs ∧
    h ∈ hs ∧
    offers h = VList [VDict (list_to_map [("name", VStr "Agoda"); ("price", VNaN)]);
                      offer "Expedia" 500] ∧
    ¬ (no_offers h ∨ ∃ p, cheapest_price h = Some p ∧ (p <= 4 # 1)%Q).
Proof.
  exists [nan_offer_listing], nan_offer_listing.
  split; [vm_compute; reflexivity|].
  split; [by left|]. split; [reflexivity|].
  intros [Hno | (p & Hp & _)]; [|discriminate Hp].
  unfold no_offers in Hno. simpl in Hno. discriminate Hno.
Qed.

(** C1, amended.  With [max_price] supplied, over a store whose offer
    prices, where present, are [int]s or finite [float]s, every returned
    hotel has no offers or a cheapest-offer price of at most
    [max_price]; and no fetched record without offers is dropped by the
    filter: its projection is returned. *)
Theorem list_hotels_max_price destination m min_rating limit db db' hs :
  db_prices_typed db →
  list_hotels destination (Some m) min_rating limit db = (db', Ok hs) →
  (∀ h, h ∈ hs → no_offers h ∨ ∃ p, cheapest_price h = Some p ∧ (p <= m)%Q) ∧
  (∀ docs d,
     get_documents "hotel" (base_filter destination min_rating) limit db' = (db', Ok docs) →
     d ∈ docs → truthy (default (VList []) (d !! "offers")) = false →
     ∃ h, project (Some m) d = Ok (Some h) ∧ h ∈ hs).
Proof.
  intros Htyped Hrun.
  pose proof Hrun as (s & all & hotels & Hseed & -> & Hfind & Hproj & Hsort)%list_hotels_Ok.
  pose proof (ensure_seed_typed _ _ Htyped Hseed) as Hts.
  apply sort_Ok in Hsort as (Hperm & srt & Hsrt & Hkeys & _).
  destruct (project_all_Ok _ _ _ Hproj) as (Hfrom & _ & Hto).
  destruct (find_Ok _ _ _ Hfind) as [Hsub _].
  split.
  - intros h Hh. destruct (truthy (offers h)) eqn:Ht; [right | by left].
    assert (∃ k, sort_key h = Ok k) as [k Hk].
    { rewrite Hsrt in Hh. apply list_elem_of_fmap in Hh as ([k h'] & -> & Hin).
      exists k. eapply Forall_forall in Hkeys; [|done]. done. }
    rewrite Hperm in Hh. eapply Forall_forall in Hfrom as (d & Hd & Hp); [|done].
    eapply kept_hotel_price; [done| |done..].
    rewrite Forall_forall in Hts. apply Hts.
    eapply elem_of_sublist; [|exact Hsub].
    eapply elem_of_sublist; [done | apply sublist_take].
  - intros docs d Hget Hd Hf. unfold get_documents in Hget. rewrite Hfind in Hget.
    simpl in Hget. injection Hget as <-.
    eapply Forall_forall in Hto as (oh & Hp & Hin); [|done].
    destruct (project_no_offers _ _ _ Hf Hp) as (h & -> & _).
    exists h. split; [done|]. rewrite Hperm. by apply Hin.
Qed.

(** The theorem at a store with a hotel above the maximum and a hotel
    without offers, [max_price = 150]. *)
Lemma list_hotels_max_price_witness :
  db_prices_typed (db_of [pricey_hotel; unlisted_hotel]) ∧
  (∀ h, h ∈ [unlisted_listing] →
        no_offers h ∨ ∃ p, cheapest_price h = Some p ∧ (p <= 150 # 1)%Q) ∧
  (∀ docs d,
     get_documents "hotel" (base_filter None None) 20 (db_of [pricey_hotel; unlisted_hotel]) =
       (db_of [pricey_hotel; unlisted_hotel], Ok docs) →
     d ∈ docs → truthy (default (VList []) (d !! "offers")) = false →
     ∃ h, project (Some (150 # 1)) d = Ok (Some h) ∧ h ∈ [unlisted_listing]).
Proof.
  assert (db_prices_typed (db_of [pricey_hotel; unlisted_hotel])) as Htyped.
  { intros s [= <-]. repeat constructor. }
  split; [exact Htyped|].
  apply (list_hotels_max_price None (150 # 1) None 20 _ _ _ Htyped).
  vm_compute. reflexivity.
Defined.
(* ===================================================================== *)
(** ** The order of the response *)
(* ===================================================================== *)

(** C2, as stated, fails: a hotel priced above the sentinel [1e9] is
    returned after a hotel without offers. *)
Lemma empty_offers_not_last :
  ∃ hs, (list_hotels None None None 20 (db_of [pricey_hotel; unlisted_hotel])).2 = Ok hs ∧
        ¬ empty_offers_last hs.
Proof.
  eexists. split; [vm_compute; reflexivity|].
  intros H. specialize (H 0%nat 1%nat _ _ eq_refl eq_refl).
  assert (1 < 0)%nat; [|lia]. apply H; [done|]. unfold no_offers. simpl. done.
Qed.

(** C2, amended.  In a returned list without a NaN offer price, the
    hotels that have a rank price come in ascending order of it: the rank
    price of a hotel is [1e9] when it has no offers, and the least of its
    offer prices when these are all [int]s or finite [float]s.  So there
    a hotel without offers comes after every hotel whose cheapest offer
    is below [1e9]. *)
Theorem list_hotels_sorted destination max_price min_rating limit db db' hs :
  list_hotels destination max_price min_rating limit db = (db', Ok hs) →
  nan_free hs →
  (∀ i j hi hj ki kj,
     (i < j)%nat → hs !! i = Some hi → hs !! j = Some hj →
     price_key hi = Some ki → price_key hj = Some kj → (ki <= kj)%Q) ∧
  (∀ i j hi hj p,
     hs !! i = Some hi → hs !! j = Some hj →
     no_offers hi → cheapest_price hj = Some p → (p < no_offer_key)%Q →
     (j < i)%nat).
Proof.
  intros (s & all & hotels & _ & _ & _ & _ & Hsort)%list_hotels_Ok Hfree.
  apply sort_Ok in Hsort as (_ & srt & -> & Hkeys & Hsorted).
  specialize (Hsorted (nan_free_keys _ Hkeys Hfree)).
  assert (∀ i j hi hj ki kj,
     (i < j)%nat → srt.*2 !! i = Some hi → srt.*2 !! j = Some hj →
     price_key hi = Some ki → price_key hj = Some kj → (ki <= kj)%Q) as Hasc.
  { intros i j hi hj ki kj Hij Hi Hj Hki Hkj.
    rewrite list_lookup_fmap in Hi, Hj.
    destruct (srt !! i) as [[ci hi']|] eqn:Hsi; [|done].
    destruct (srt !! j) as [[cj hj']|] eqn:Hsj; [|done].
    simpl in Hi, Hj. injection Hi as ->. injection Hj as ->.
    pose proof (StronglySorted_lookup _ _ _ _ _ _ Hsorted Hij Hsi Hsj) as Hle.
    rewrite Forall_forall in Hkeys.
    pose proof (Hkeys _ (list_elem_of_lookup_2 _ _ _ Hsi)) as Hci.
    pose proof (Hkeys _ (list_elem_of_lookup_2 _ _ _ Hsj)) as Hcj.
    destruct (sort_key_price_key _ _ Hki) as (c & Hc & Hnum).
    destruct (sort_key_price_key _ _ Hkj) as (c' & Hc' & Hnum').
    simpl in Hci, Hcj. rewrite Hc in Hci. rewrite Hc' in Hcj.
    injection Hci as <-. injection Hcj as <-.
    unfold keyed_le, key_le in Hle. simpl in Hle.
    by rewrite (rank_of_num _ _ Hnum), (rank_of_num _ _ Hnum') in Hle. }
  split; [done|].
  intros i j hi hj p Hi Hj Hno Hp Hlt.
  assert (truthy (offers hj) = true) as Htj.
  { unfold cheapest_price in Hp. by destruct (offers hj) as [| | | | |[|o os]| | |]. }
  destruct (Nat.lt_trichotomy j i) as [?|[->|Hij]]; [done|..].
  - rewrite Hi in Hj. injection Hj as ->. unfold no_offers in Hno. congruence.
  - exfalso. apply (Qlt_not_le _ _ Hlt).
    apply (Hasc i j hi hj); [done..| |].
    + unfold price_key. by rewrite Hno.
    + unfold price_key. by rewrite Htj.
Qed.

(** The theorem at the store of the counterexample. *)
Lemma list_hotels_sorted_witness :
  nan_free [unlisted_listing; pricey_listing] ∧
  (∀ i j hi hj ki kj,
     (i < j)%nat →
     [unlisted_listing; pricey_listing] !! i = Some hi →
     [unlisted_listing; pricey_listing] !! j = Some hj →
     price_key hi = Some ki → price_key hj = Some kj → (ki <= kj)%Q) ∧
  (∀ i j hi hj p,
     [unlisted_listing; pricey_listing] !! i = Some hi →
     [unlisted_listing; pricey_listing] !! j = Some hj →
     no_offers hi → cheapest_price hj = Some p → (p < no_offer_key)%Q →
     (j < i)%nat).
Proof.
  assert (nan_free [unlisted_listing; pricey_listing]) as Hfree.
  { repeat constructor. }
  split; [exact Hfree|].
  apply (list_hotels_sorted None None None 20
           (db_of [pricey_hotel; unlisted_hotel]) (db_of [pricey_hotel; unlisted_hotel]));
    [|exact Hfree].
  vm_compute. reflexivity.
Defined.

(* ===================================================================== *)
(** ** The limit *)
(* ===================================================================== *)

(** C4. The limit caps what is fetched; the loop then works on the
    fetched records alone and the sort only reorders what the loop kept.
    So at most [limit] hotels are returned, and fewer may be returned
    than stored records qualify: with [limit = 2] and [max_price = 150]
    on the demo records, the two fetched are dropped and nothing is
    returned, though the third stored record passes both filters. *)
Theorem list_hotels_limit_before_price_filter :
  (∀ destination max_price min_rating limit db db' hs,
     list_hotels destination max_price min_rating limit db = (db', Ok hs) →
     ∃ docs hotels,
       get_documents "hotel" (base_filter destination min_rating) limit db' = (db', Ok docs) ∧
       (length docs ≤ Z.to_nat limit)%nat ∧
       project_all max_price docs = Ok hotels ∧
       hs ≡ₚ hotels ∧
       (length hs ≤ length docs)%nat) ∧
  (∀ destination max_price min_rating limit db db' hs,
     1 ≤ limit →
     list_hotels destination max_price min_rating limit db = (db', Ok hs) →
     Z.of_nat (length hs) ≤ limit) ∧
  (∃ s d h,
     list_hotels None (Some (150 # 1)) None 2 (Some empty_db) = (Some s, Ok []) ∧
     collection s "hotel" !! 2%nat = Some d ∧
     matches (base_filter None None) d = Ok true ∧
     project (Some (150 # 1)) d = Ok (Some h) ∧
     name h = VStr "City Center Boutique Hotel" ∧
     cheapest_price h = Some (119 # 1)).
Proof.
  assert (∀ destination max_price min_rating limit db db' hs,
     list_hotels destination max_price min_rating limit db = (db', Ok hs) →
     ∃ docs hotels,
       get_documents "hotel" (base_filter destination min_rating) limit db' = (db', Ok docs) ∧
       (length docs ≤ Z.to_nat limit)%nat ∧
       project_all max_price docs = Ok hotels ∧
       hs ≡ₚ hotels ∧
       (length hs ≤ length docs)%nat) as Hshape.
  { intros destination max_price min_rating limit db db' hs
      (s & all & hotels & _ & -> & Hfind & Hproj & Hsort)%list_hotels_Ok.
    apply sort_Ok in Hsort as (Hperm & _).
    destruct (project_all_Ok _ _ _ Hproj) as (_ & Hlen & _).
    exists (take (Z.to_nat limit) all), hotels.
    split; [unfold get_documents; by rewrite Hfind|].
    split; [rewrite length_take; lia|].
    split; [done|]. split; [done|]. by rewrite Hperm. }
  split; [done|]. split.
  - intros destination max_price min_rating limit db db' hs Hlim Hrun.
    destruct (Hshape _ _ _ _ _ _ _ Hrun) as (docs & hotels & _ & Hfetch & _ & _ & Hlen).
    lia.
  - eexists _, _, _. split; [vm_compute; reflexivity|].
    split; [vm_compute; reflexivity|].
    split; [apply matches_empty|].
    split; [vm_compute; reflexivity|].
    split; [reflexivity | vm_compute; reflexivity].
Qed.

(** The bound at [limit = 2], where one of the two fetched records is
    dropped. *)
Lemma list_hotels_limit_witness :
  1 ≤ 2 ∧ Z.of_nat (length [unlisted_listing]) ≤ 2.
Proof.
  split; [lia|].
  apply (proj1 (proj2 list_hotels_limit_before_price_filter)
           None (Some (150 # 1)) None 2
           (db_of [unlisted_hotel; pricey_hotel; pricey_hotel])
           (db_of [unlisted_hotel; pricey_hotel; pricey_hotel])).
  - lia.
  - vm_compute. reflexivity.
Defined.

(* ===================================================================== *)
(** ** The seed step *)
(* ===================================================================== *)

(** C5. On a hotel collection that is not empty the seed step changes
    nothing; and whatever the store, a second run after a first changes
    nothing, so the demo records are never inserted twice. *)
Theorem ensure_seed_idempotent db :
  (∀ s, db = Some s → collection s "hotel" ≠ [] →
        _ensure_seed_hotels db = (db, Ok tt)) ∧
  (∃ db1, _ensure_seed_hotels db = (db1, Ok tt) ∧
          _ensure_seed_hotels db1 = (db1, Ok tt)).
Proof.
  split.
  - intros s -> Hne. by apply ensure_seed_nonempty.
  - destruct db as [s|]; [|by exists None].
    destruct (collection s "hotel") as [|d ds] eqn:He.
    + destruct (ensure_seed_empty s He) as (s' & Hs' & Hcoll).
      exists (Some s'). split; [done|].
      apply ensure_seed_nonempty. by rewrite Hcoll.
    + exists (Some s).
      split; apply ensure_seed_nonempty; by rewrite He.
Qed.

(** The theorem at a store with one hotel. *)
Lemma ensure_seed_idempotent_witness :
  collection (store_of [unlisted_hotel]) "hotel" ≠ [] ∧
  _ensure_seed_hotels (db_of [unlisted_hotel]) = (db_of [unlisted_hotel], Ok tt).
Proof.
  assert (collection (store_of [unlisted_hotel]) "hotel" ≠ []) as Hne by (vm_compute; discriminate).
  split; [exact Hne|].
  exact (proj1 (ensure_seed_idempotent (db_of [unlisted_hotel])) _ eq_refl Hne).
Defined.
(** C3. Against a reachable store whose hotel collection is empty,
    [list_hotels] without filters and with [limit = 20] stores exactly the
    four demo records and returns all four, cheapest offer first: City
    Center Boutique Hotel (119), Seaside Vista Resort (176), Alpine Lodge
    & Spa (239), Lagoon Overwater Villas (598). *)
Theorem list_hotels_seeds_demo s :
  collection s "hotel" = [] →
  ∃ s' hs,
    list_hotels None None None 20 (Some s) = (Some s', Ok hs) ∧
    collection s' "hotel" = seed_docs (next_oid s) ∧
    (fun d : document => d !! "name") <$> collection s' "hotel" =
      [Some (VStr "Seaside Vista Resort"); Some (VStr "Alpine Lodge & Spa");
       Some (VStr "City Center Boutique Hotel"); Some (VStr "Lagoon Overwater Villas")] ∧
    (fun h => (name h, cheapest_price h)) <$> hs =
      [(VStr "City Center Boutique Hotel", Some (119 # 1));
       (VStr "Seaside Vista Resort", Some (176 # 1));
       (VStr "Alpine Lodge & Spa", Some (239 # 1));
       (VStr "Lagoon Overwater Villas", Some (598 # 1))].
Proof.
  intros He. destruct (ensure_seed_empty s He) as (s' & Hseed & Hcoll).
  exists s'. eexists. split.
  - rewrite (list_hotels_seeded _ _ _ _ _ _ Hseed), Hcoll.
    f_equal; vm_compute; reflexivity.
  - rewrite Hcoll. split; [done|]. split; vm_compute; reflexivity.
Qed.

(** The theorem at the empty store. *)
Lemma list_hotels_seeds_demo_witness :
  ∃ s' hs,
    list_hotels None None None 20 (Some empty_db) = (Some s', Ok hs) ∧
    collection s' "hotel" = seed_docs 0 ∧
    (fun d : document => d !! "name") <$> collection s' "hotel" =
      [Some (VStr "Seaside Vista Resort"); Some (VStr "Alpine Lodge & Spa");
       Some (VStr "City Center Boutique Hotel"); Some (VStr "Lagoon Overwater Villas")] ∧
    (fun h => (name h, cheapest_price h)) <$> hs =
      [(VStr "City Center Boutique Hotel", Some (119 # 1));
       (VStr "Seaside Vista Resort", Some (176 # 1));
       (VStr "Alpine Lodge & Spa", Some (239 # 1));
       (VStr "Lagoon Overwater Villas", Some (598 # 1))].
Proof. apply (list_hotels_seeds_demo empty_db). reflexivity. Defined.

(** C10. An empty [destination] is no destination: the filter gets no
    location condition and the run is that of a call without one. *)
Theorem list_hotels_empty_destination max_price min_rating limit db :
  base_filter (Some "") min_rating = base_filter None min_rating ∧
  base_filter (Some "") min_rating !! "location" = None ∧
  list_hotels (Some "") max_price min_rating limit db =
    list_hotels None max_price min_rating limit db.
Proof.
  split; [done|]. split; [|done].
  unfold base_filter. simpl. destruct min_rating; [|done].
  by rewrite lookup_insert_ne.
Qed.

(** C9. The sort key reads [o["price"]]: on a stored hotel whose offers
    hold one without a price, the loop keeps the hotel, the key raises
    [KeyError] and so does the call. *)
Theorem sort_key_unpriced_offer_raises :
  ∃ h os,
    project None unpriced_offer_hotel = Ok (Some h) ∧
    offers h = VList os ∧ os ≠ [] ∧ existsb lacks_price os = true ∧
    sort_key h = Raise KeyError ∧
    (list_hotels None None None 20 (db_of [unpriced_offer_hotel])).2 = Raise KeyError.
Proof.
  eexists _, _. split; [vm_compute; reflexivity|].
  split; [reflexivity|]. split; [done|]. split; [by vm_compute|].
  split; by vm_compute.
Qed.
(* ===================================================================== *)
(** ** Missing fields *)
(* ===================================================================== *)

(** The prices the filter reads from well-formed offers. *)
Lemma offers_counted_prices os :
  forallb offer_ok os = true →
  ∃ ps qs, mapM (fun o => get o "price" (VInt 0)) os = Ok ps ∧
           mapM num_of ps = Some qs ∧
           Forall2 counted_price os qs.
Proof.
  induction os as [|o os IH]; simpl.
  - intros _. by exists [], [].
  - intros [Ho Hos]%andb_true_iff. destruct (IH Hos) as (ps & qs & Hps & Hqs & Hall).
    destruct o as [| | | | | |m| |]; simpl in Ho; try done.
    destruct (m !! "price") as [v|] eqn:Hv.
    + destruct (num_of v) as [q|] eqn:Hq; [|by destruct v].
      exists (v :: ps), (q :: qs). simpl. rewrite Hv, Hps, Hq, Hqs. simpl.
      split; [done|]. split; [done|]. constructor; [|done]. simpl. by rewrite Hv.
    + exists (VInt 0 :: ps), (0%Q :: qs). simpl. rewrite Hv, Hps, Hqs. simpl.
      split; [done|]. split; [done|]. constructor; [|done]. simpl. by rewrite Hv.
Qed.

(** [<] answers on two numbers, finite or not. *)
Lemma lt_number a b : is_number a = true → is_number b = true → ∃ c, lt a b = Ok c.
Proof. destruct a, b; simpl; try done; eauto. Qed.

(** So the scan of [min] over numbers answers, with one of them. *)
Lemma min_from_number l : ∀ best,
  is_number best = true → Forall (fun v => is_number v = true) l →
  ∃ v, min_from best l = Ok v ∧ is_number v = true.
Proof.
  induction l as [|x l IH]; intros best Hb Hl; simpl.
  - eauto.
  - apply Forall_cons in Hl as [Hx Hl].
    destruct (lt_number x best Hx Hb) as [c ->]. simpl.
    apply IH; [by destruct c | done].
Qed.

Lemma best_price_ok os :
  forallb offer_numbered os = true →
  ∃ best, best_price (VList os) = Ok best ∧ (best = VNone ∨ is_number best = true).
Proof.
  intros Hok.
  assert (∃ ps, mapM (fun o => get o "price" (VInt 0)) os = Ok ps ∧
                Forall (fun v => is_number v = true) ps) as (ps & Hps & Hall).
  { induction os as [|o os IH]; [by exists []|].
    simpl in Hok. apply andb_true_iff in Hok as [Ho Hok].
    destruct (IH Hok) as (ps & Hps & Hall).
    destruct o as [| | | | | |m| |]; simpl in Ho; try done.
    exists (default (VInt 0) (m !! "price") :: ps). split.
    - simpl. by rewrite Hps.
    - constructor; [|done]. by destruct (m !! "price"). }
  unfold best_price. simpl. rewrite Hps. simpl.
  destruct ps as [|p ps]; [by eauto|].
  apply Forall_cons in Hall as [Hp Hall].
  destruct (min_from_number ps p Hp Hall) as (v & Hv & Hn).
  exists v. simpl. split; [done | by right].
Qed.

Lemma over_max_price_ok max_price best :
  best = VNone ∨ is_number best = true → ∃ b, over_max_price max_price best = Ok b.
Proof.
  intros [->|Hn]; [destruct max_price; by eexists|].
  destruct max_price as [m|]; [|by eexists].
  destruct best as [| | | | | | | |[]]; simpl in *; try done; by eexists.
Qed.

(** C7, as stated, fails: a record whose rating is stored as [null] makes
    the coercion, and the call, raise [TypeError]. *)
Lemma null_rating_raises :
  project None null_rating_hotel = Raise TypeError ∧
  (list_hotels None None None 20 (db_of [null_rating_hotel])).2 = Raise TypeError.
Proof. split; by vm_compute. Qed.

(** C7, amended.  The loop raises nothing on records whose [rating] is
    missing, a finite [float] or an [int] of magnitude at most 2^53,
    whose [reviews] is missing, an [int] or a finite [float], and whose
    [offers] is missing or a list of [dict]s with a number ([int] or
    [float], finite or not) or nothing for a price; a record without
    offers is kept; and a missing [rating], [reviews] or [offers] is
    projected as [0.0], [0] and the empty list. *)
Theorem projection_tolerates_missing_fields max_price docs :
  Forall (fun d => record_ok d = true) docs →
  (∃ hs, project_all max_price docs = Ok hs) ∧
  (∀ d, d ∈ docs →
     ∃ oh, project max_price d = Ok oh ∧
           (d !! "offers" = None → is_Some oh) ∧
           (∀ h, oh = Some h →
              (d !! "rating" = None → rating h = 0%Q) ∧
              (d !! "reviews" = None → reviews h = 0) ∧
              (d !! "offers" = None → offers h = VList []))).
Proof.
  intros Hok.
  assert (∀ d, record_ok d = true → ∃ oh, project max_price d = Ok oh) as Hrun.
  { intros d [[Hrating Hreviews]%andb_true_iff Hoffers]%andb_true_iff.
    unfold project.
    assert (∃ best, best_price (default (VList []) (d !! "offers")) = Ok best ∧
                    (best = VNone ∨ is_number best = true)) as (best & -> & Hbest).
    { destruct (d !! "offers") as [[| | | | |os| | |]|]; simpl in *; try done.
      - by apply best_price_ok.
      - exists VNone. split; [done | by left]. }
    destruct (over_max_price_ok max_price best Hbest) as [over Hover].
    simpl. rewrite Hover. simpl.
    destruct over; [by eexists|].
    assert (∃ r, float (default (VInt 0) (d !! "rating")) = Ok r) as [r ->].
    { destruct (d !! "rating") as [[]|]; simpl in *; try done; try by eexists.
      rewrite Hrating. by eexists. }
    assert (∃ n, int (default (VInt 0) (d !! "reviews")) = Ok n) as [n ->].
    { destruct (d !! "reviews") as [[]|]; simpl in *; try done; by eexists. }
    simpl. by eexists. }
  split.
  - induction Hok as [|d ds Hd _ [hs IH]]; [by exists []|].
    destruct (Hrun d Hd) as [oh Hoh]. simpl. rewrite Hoh, IH. simpl. by eexists.
  - intros d Hd. rewrite Forall_forall in Hok.
    destruct (Hrun d (Hok d Hd)) as [oh Hoh]. exists oh. split; [done|]. split.
    + intros Hnone. destruct (project_no_offers max_price d oh) as (h & -> & _); [|done|done].
      by rewrite Hnone.
    + intros h ->. apply project_Some in Hoh as (Hoff & _ & _ & Hr & Hn & _).
      repeat split.
      * intros Hnone. rewrite Hnone in Hr. simpl in Hr. by injection Hr.
      * intros Hnone. rewrite Hnone in Hn. simpl in Hn. by injection Hn.
      * intros Hnone. by rewrite Hoff, Hnone.
Qed.

(** The theorem at a record with nothing but a name and at one with an
    offer without a price. *)
Lemma projection_tolerates_missing_fields_witness :
  Forall (fun d => record_ok d = true) [bare_hotel; unpriced_offer_hotel] ∧
  (∃ hs, project_all (Some (100 # 1)) [bare_hotel; unpriced_offer_hotel] = Ok hs) ∧
  (∀ d, d ∈ [bare_hotel; unpriced_offer_hotel] →
     ∃ oh, project (Some (100 # 1)) d = Ok oh ∧
           (d !! "offers" = None → is_Some oh) ∧
           (∀ h, oh = Some h →
              (d !! "rating" = None → rating h = 0%Q) ∧
              (d !! "reviews" = None → reviews h = 0) ∧
              (d !! "offers" = None → offers h = VList []))).
Proof.
  assert (Forall (fun d => record_ok d = true) [bare_hotel; unpriced_offer_hotel]) as Hok.
  { repeat constructor. }
  split; [exact Hok|].
  exact (projection_tolerates_missing_fields (Some (100 # 1)) _ Hok).
Defined.

(* ===================================================================== *)
(** ** Offers without a price *)
(* ===================================================================== *)

Lemma counted_price_nonneg o q :
  offer_price_nonneg o = true → counted_price o q → (0 <= q)%Q.
Proof.
  destruct o as [| | | | | |m| |]; simpl; try done.
  destruct (m !! "price") as [v|]; [|by intros _ ->].
  intros H Hq. rewrite Hq in H. by apply Qle_bool_iff.
Qed.

Lemma counted_price_lacking o q : lacks_price o = true → counted_price o q → q = 0%Q.
Proof.
  destruct o as [| | | | | |m| |]; simpl; try done.
  by destruct (m !! "price").
Qed.

Lemma offer_price_nonneg_ok o : offer_price_nonneg o = true → offer_ok o = true.
Proof.
  destruct o as [| | | | | |m| |]; simpl; try done.
  destruct (m !! "price") as [v|]; [|done]. by destruct v.
Qed.

(** C8, as stated, fails: beside an offer priced -5, the offer without a
    price counts as 0 and the best price is -5, not 0. *)
Lemma unpriced_offer_best_price_negative :
  existsb lacks_price refund_offers = true ∧
  best_price (VList refund_offers) = Ok (VInt (-5)) ∧
  ¬ ∃ best q,
      best_price (VList refund_offers) = Ok best ∧ num_of best = Some q ∧ (q == 0)%Q.
Proof.
  split; [reflexivity|]. split; [vm_compute; reflexivity|].
  intros (best & q & Hbest & Hq & Hzero).
  vm_compute in Hbest. injection Hbest as <-.
  injection Hq as <-. discriminate Hzero.
Qed.

(** C8, amended.  In the price filter an offer without a price counts as
    price 0: among offers that are [dict]s whose prices, where present,
    are non-negative [int]s or finite [float]s, one without a price
    makes the best price 0, and with a non-negative [max_price] the
    hotel is never dropped. *)
Theorem unpriced_offer_counts_as_zero os :
  forallb offer_price_nonneg os = true →
  existsb lacks_price os = true →
  (∀ o, o ∈ os → lacks_price o = true → get o "price" (VInt 0) = Ok (VInt 0)) ∧
  (∃ best q,
     best_price (VList os) = Ok best ∧ num_of best = Some q ∧ (q == 0)%Q ∧
     ∀ max_price, (0 <= max_price)%Q →
       over_max_price (Some max_price) best = Ok false ∧
       ∀ d, d !! "offers" = Some (VList os) → project (Some max_price) d ≠ Ok None).
Proof.
  intros Hnonneg Hlack. split.
  { intros o _. destruct o as [| | | | | |m| |]; simpl; try done.
    by destruct (m !! "price"). }
  assert (forallb offer_ok os = true) as Hok.
  { apply forallb_forall. intros o Ho. apply offer_price_nonneg_ok.
    by eapply forallb_forall in Hnonneg. }
  destruct (offers_counted_prices os Hok) as (ps & qs & Hps & Hqs & Hcount).
  assert (Forall (fun q => 0 <= q)%Q qs) as Hpos.
  { rewrite forallb_forall in Hnonneg. clear -Hcount Hnonneg.
    induction Hcount as [|o q os qs Hq _ IH]; constructor.
    - eapply counted_price_nonneg; [|done]. apply Hnonneg. by left.
    - apply IH. intros x Hx. apply Hnonneg. by right. }
  assert (0%Q ∈ qs) as Hzero.
  { apply existsb_exists in Hlack as (o & Ho & Hl). clear -Hcount Ho Hl.
    induction Hcount as [|o' q os qs Hq _ IH]; [done|].
    destruct Ho as [->|Ho].
    - rewrite (counted_price_lacking _ _ Hl Hq). by left.
    - right. by apply IH. }
  destruct ps as [|p ps]; [simpl in Hqs; injection Hqs as <-; by apply elem_of_nil in Hzero|].
  simpl in Hqs. destruct (num_of p) as [q0|] eqn:Hq0; [|done]. simpl in Hqs.
  destruct (mapM num_of ps) as [qs'|] eqn:Hqs'; [|done]. injection Hqs as <-.
  destruct (min_from_num ps p q0 qs' Hq0 Hqs') as (best & Hbest & Hnum).
  destruct (foldl_price_min_le qs' q0) as (Hle0 & Hle & Hin).
  set (q := foldl price_min q0 qs') in *.
  assert (q == 0)%Q as Hq.
  { apply Qle_antisym.
    - apply elem_of_cons in Hzero as [->|Hz]; [done|].
      rewrite Forall_forall in Hle. by apply Hle.
    - rewrite Forall_forall in Hpos. apply Hpos.
      destruct Hin as [->|Hin]; [by left | by right]. }
  assert (best_price (VList os) = Ok best) as Hbp.
  { unfold best_price. simpl. rewrite Hps. simpl. done. }
  exists best, q. split; [done|]. split; [done|]. split; [done|].
  intros m Hm.
  assert (over_max_price (Some m) best = Ok false) as Hover.
  { assert (over_max_price (Some m) best = gt best (VFloat m)) as -> by (by destruct best).
    unfold gt. rewrite (lt_num (VFloat m) best m q) by done. f_equal.
    apply Qlt_bool_false. by rewrite Hq. }
  split; [done|].
  intros d Hd. unfold project. rewrite Hd. cbn [default from_option id].
  rewrite (bind_Ok_intro _ _ _ Hbp), (bind_Ok_intro _ _ _ Hover).
  destruct (float _) as [r| |]; simpl; [|done..].
  by destruct (int _).
Qed.

(** The theorem at an offer without a price beside one at 140. *)
Lemma unpriced_offer_counts_as_zero_witness :
  (∀ o, o ∈ [VDict (list_to_map [("name", VStr "Booking.com")]); offer "Expedia" 140] →
        lacks_price o = true → get o "price" (VInt 0) = Ok (VInt 0)) ∧
  (∃ best q,
     best_price (VList [VDict (list_to_map [("name", VStr "Booking.com")]); offer "Expedia" 140]) = Ok best ∧
     num_of best = Some q ∧ (q == 0)%Q ∧
     ∀ max_price, (0 <= max_price)%Q →
       over_max_price (Some max_price) best = Ok false ∧
       ∀ d, d !! "offers" =
              Some (VList [VDict (list_to_map [("name", VStr "Booking.com")]); offer "Expedia" 140]) →
            project (Some max_price) d ≠ Ok None).
Proof.
  apply unpriced_offer_counts_as_zero; vm_compute; reflexivity.
Defined.

(* ===================================================================== *)
(** ** The destination *)
(* ===================================================================== *)

Lemma occurs_spec (l k : list ascii) :
  occurs l k = true ↔ ∃ pre post, k = pre ++ l ++ post.
Proof.
  split.
  - induction k as [|x k IH]; simpl.
    + rewrite orb_false_r. intros [post ->]%bool_decide_eq_true. by exists [], post.
    + intros [[post ->]%bool_decide_eq_true | H]%orb_true_iff.
      * by exists [], post.
      * destruct (IH H) as (pre & post & ->). by exists (x :: pre), post.
  - intros (pre & post & ->). induction pre as [|x pre IH]; simpl.
    + destruct (l ++ post) eqn:E; simpl; rewrite <- ?E;
        apply orb_true_iff; left; apply bool_decide_eq_true; by exists post.
    + apply orb_true_iff. by right.
Qed.

(** C6 fails on the code: [destination] is sent to the store as a regular
    expression, so ["M.ami"] finds the hotel at "Miami Beach, USA", whose
    location does not contain ["M.ami"]. *)
Theorem destination_is_a_regex :
  ∃ s h,
    list_hotels (Some "M.ami") None None 20 (Some empty_db) = (Some s, Ok [h]) ∧
    name h = VStr "Seaside Vista Resort" ∧
    location h = VStr "Miami Beach, USA" ∧
    ¬ contains_ci "M.ami" "Miami Beach, USA" ∧
    ¬ located_in "M.ami" h.
Proof.
  assert (¬ contains_ci "M.ami" "Miami Beach, USA") as Hno.
  { unfold contains_ci. rewrite <- occurs_spec. by vm_compute. }
  eexists _, _. split; [vm_compute; reflexivity|].
  split; [reflexivity|]. split; [reflexivity|]. split; [done|].
  intros (s & Hs & Hc). simpl in Hs. injection Hs as <-. done.
Qed.
(* ===================================================================== *)
(** ** The storage predicate *)
(* ===================================================================== *)

(** A matching document satisfies each condition of the filter. *)
Lemma matches_lookup f d k c :
  matches f d = Ok true → f !! k = Some c → field_matches c (d !! k) = Ok true.
Proof.
  unfold matches. intros H Hk.
  apply bind_Ok in H as (bs & Hbs & H). injection H as Hall.
  apply mapM_Ok in Hbs. apply elem_of_map_to_list in Hk.
  apply list_elem_of_lookup in Hk as [i Hi].
  destruct (Forall2_lookup_l _ _ _ _ _ Hbs Hi) as (b & Hb & Hrun).
  simpl in Hrun. rewrite Hrun. f_equal.
  rewrite forallb_forall in Hall. apply (Hall b).
  apply list_elem_of_In. by eapply list_elem_of_lookup_2.
Qed.

(** What the loop reads was fetched, and what was fetched matches. *)
Lemma returned_hotel_source destination max_price min_rating limit db db' hs h :
  list_hotels destination max_price min_rating limit db = (db', Ok hs) → h ∈ hs →
  ∃ d, matches (base_filter destination min_rating) d = Ok true ∧
       project max_price d = Ok (Some h).
Proof.
  intros (s & all & hotels & _ & _ & Hfind & Hproj & Hsort)%list_hotels_Ok Hh.
  apply sort_Ok in Hsort as (Hperm & _). rewrite Hperm in Hh.
  destruct (project_all_Ok _ _ _ Hproj) as (Hfrom & _ & _).
  rewrite Forall_forall in Hfrom. destruct (Hfrom h Hh) as (d & Hd & Hp).
  exists d. split; [|done].
  destruct (find_Ok _ _ _ Hfind) as [_ Hall]. rewrite Forall_forall in Hall.
  apply Hall. eapply elem_of_sublist; [done | apply sublist_take].
Qed.

(** With [min_rating] supplied, every returned hotel is rated at least
    [min_rating]. *)
Theorem list_hotels_min_rating destination max_price r limit db db' hs :
  list_hotels destination max_price (Some r) limit db = (db', Ok hs) →
  ∀ h, h ∈ hs → (r <= rating h)%Q.
Proof.
  intros Hrun h Hh.
  destruct (returned_hotel_source _ _ _ _ _ _ _ _ Hrun Hh) as (d & Hm & Hp).
  apply (matches_lookup _ _ "rating" (CGte r)) in Hm;
    [|unfold base_filter; apply lookup_insert_eq].
  apply project_Some in Hp as (_ & _ & _ & Hr & _).
  destruct (d !! "rating") as [v|]; simpl in Hm, Hr; [|done].
  destruct v; simpl in Hm, Hr; try done; injection Hm as Hm;
    unfold gte_matches in Hm; simpl in Hm; apply Qle_bool_iff in Hm.
  - destruct (Z.abs z <=? 2 ^ 53); [|done]. by injection Hr as <-.
  - by injection Hr as <-.
Qed.

(** The theorem on the demo records, for the rating 9. *)
Lemma list_hotels_min_rating_witness :
  returned (list_hotels None None (Some (9 # 1)) 20 (Some empty_db)) ≠ [] ∧
  ∀ h, h ∈ returned (list_hotels None None (Some (9 # 1)) 20 (Some empty_db)) →
       (9 # 1 <= rating h)%Q.
Proof.
  split; [by vm_compute|].
  apply (list_hotels_min_rating None None (9 # 1) 20 (Some empty_db)
           (list_hotels None None (Some (9 # 1)) 20 (Some empty_db)).1).
  vm_compute. reflexivity.
Defined.

(* ===================================================================== *)
(** ** Destinations without operators *)
(* ===================================================================== *)

Lemma compile_literal destination :
  literal destination →
  Regex.compile destination = Some (Regex.Lit <$> list_ascii_of_string destination).
Proof.
  unfold literal, Regex.compile.
  induction 1 as [|c cs Hc _ IH]; [done|].
  simpl. rewrite Hc. simpl. by rewrite IH.
Qed.

Lemma strip_Some pre : ∀ s s', Regex.strip pre s = Some s' → s = pre ++ s'.
Proof.
  induction pre as [|a pre IH]; intros s s'; simpl.
  - by intros [= <-].
  - destruct s as [|c s]; [done|].
    destruct (Ascii.eqb a c) eqn:E; [|done]. apply Ascii.eqb_eq in E as ->.
    intros H. by rewrite (IH _ _ H).
Qed.

(** What a letter of the pattern consumes is a piece it folds to. *)
Lemma lit_rest_Some a s s' :
  Regex.lit_rest a s = Some s' → ∃ piece, s = piece ++ s' ∧ char_folds a piece.
Proof.
  unfold Regex.lit_rest. destruct s as [|c s]; [done|].
  destruct (Ascii.eqb (Regex.lower a) (Regex.lower c)) eqn:E1.
  - intros [= <-]. exists [c]. split; [done|]. left. exists c.
    split; [done | by apply Ascii.eqb_eq].
  - destruct (Ascii.eqb (Regex.lower a) "k") eqn:E2.
    + intros H%strip_Some. exists Regex.kelvin. split; [done|]. right; left.
      split; [by apply Ascii.eqb_eq | done].
    + destruct (Ascii.eqb (Regex.lower a) "s") eqn:E3; [|done].
      intros H%strip_Some. exists Regex.long_s. split; [done|]. right; right.
      split; [by apply Ascii.eqb_eq | done].
Qed.

Lemma match_here_literal p : ∀ s,
  Regex.match_here (Regex.Lit <$> p) s = true →
  ∃ pieces post, s = concat pieces ++ post ∧ Forall2 char_folds p pieces.
Proof.
  induction p as [|a p IH]; intros s.
  - intros _. exists [], s. split; [done | constructor].
  - rewrite fmap_cons. simpl.
    destruct (Regex.lit_rest a s) as [s'|] eqn:Hr; [|done]. intros H.
    apply lit_rest_Some in Hr as (piece & -> & Hf).
    destruct (IH _ H) as (pieces & post & -> & Hall).
    exists (piece :: pieces), post.
    split; [simpl; by rewrite app_assoc | by constructor].
Qed.

Lemma search_literal p s :
  Regex.search (Regex.Lit <$> p) s = true →
  ∃ pre pieces post, s = pre ++ concat pieces ++ post ∧ Forall2 char_folds p pieces.
Proof.
  induction s as [|c s IH]; intros H; simpl in H.
  - apply match_here_literal in H as (pieces & post & Hs & Hall).
    by exists [], pieces, post.
  - apply orb_true_iff in H as [[_ H]%andb_true_iff | H].
    + apply match_here_literal in H as (pieces & post & Hs & Hall).
      by exists [], pieces, post.
    + destruct (IH H) as (pre & pieces & post & Hs & Hall).
      exists (c :: pre), pieces, post. by rewrite Hs.
Qed.

(** With a [destination] that holds no regular-expression operator, the
    location of every returned hotel contains it letter by letter: each
    character of [destination] by itself or, a letter, by its other case;
    [k] also by the Kelvin sign and [s] by the long s (where the stored
    location is an array, one of its strings contains it so). *)
Theorem list_hotels_literal_destination destination max_price min_rating limit db db' hs :
  destination ≠ "" → literal destination →
  list_hotels (Some destination) max_price min_rating limit db = (db', Ok hs) →
  ∀ h, h ∈ hs → located_folded destination h.
Proof.
  intros Hne Hlit Hrun h Hh.
  destruct (returned_hotel_source _ _ _ _ _ _ _ _ Hrun Hh) as (d & Hm & Hp).
  apply (matches_lookup _ _ "location" (CRegex destination "i")) in Hm.
  2:{ unfold base_filter. apply String.eqb_neq in Hne. rewrite Hne.
      destruct min_rating; [rewrite lookup_insert_ne by done|]; apply lookup_insert_eq. }
  apply project_Some in Hp as (_ & Hloc & _).
  simpl in Hm. unfold Regex.compile_i in Hm. simpl in Hm.
  rewrite (compile_literal _ Hlit) in Hm. simpl in Hm. injection Hm as Hm.
  destruct (d !! "location") as [v|]; [|done].
  destruct v as [| | |s| |vs| | |]; try done; simpl in Hloc.
  - left. exists s. split; [done|]. by apply search_literal.
  - right. apply existsb_exists in Hm as (e & He & Hs).
    destruct e as [| | |s| | | | |]; try done.
    exists vs, s. split; [done|]. split; [by apply list_elem_of_In|].
    by apply search_literal.
Qed.

(** The theorem on the demo records, for the destination japan. *)
Lemma list_hotels_literal_destination_witness :
  "japan" ≠ "" ∧ literal "japan" ∧
  ∀ h, h ∈ returned (list_hotels (Some "japan") None None 20 (Some empty_db)) →
       located_folded "japan" h.
Proof.
  assert ("japan" ≠ "") as Hne by done.
  assert (literal "japan") as Hlit by repeat constructor.
  split; [exact Hne|]. split; [exact Hlit|].
  apply (list_hotels_literal_destination "japan" None None 20 (Some empty_db)
           (list_hotels (Some "japan") None None 20 (Some empty_db)).1).
  - exact Hne.
  - exact Hlit.
  - vm_compute. reflexivity.
Defined.

(* ===================================================================== *)
(** ** The scenarios of the specification *)
(* ===================================================================== *)

(** On the demo records: [destination=Japan] returns City Center Boutique
    Hotel alone, so does [max_price=150], and [min_rating=9.0] returns
    Alpine Lodge & Spa before Lagoon Overwater Villas. *)
Theorem list_hotels_scenarios :
  name <$> returned (list_hotels (Some "Japan") None None 20 (Some empty_db)) =
    [VStr "City Center Boutique Hotel"] ∧
  name <$> returned (list_hotels None (Some (150 # 1)) None 20 (Some empty_db)) =
    [VStr "City Center Boutique Hotel"] ∧
  name <$> returned (list_hotels None None (Some (9 # 1)) 20 (Some empty_db)) =
    [VStr "Alpine Lodge & Spa"; VStr "Lagoon Overwater Villas"].
Proof. repeat split; vm_compute; reflexivity. Qed.
(* ===================================================================== *)
(** ** What the response is made of *)
(* ===================================================================== *)

Lemma project_fields max_price d h :
  project max_price d = Ok (Some h) →
  id h = default VNone (d !! "_id") ∧ image h = default VNone (d !! "image").
Proof.
  unfold project. intros H.
  apply bind_Ok in H as (best & _ & H). apply bind_Ok in H as (over & _ & H).
  destruct over; [done|].
  apply bind_Ok in H as (r & _ & H). apply bind_Ok in H as (n & _ & H).
  injection H as <-. done.
Qed.


(** Every returned hotel is the projection of a stored record that
    matches the storage filter: identifier, name, location, image and
    offers are the record's own. *)
Theorem list_hotels_returns_stored_records
    destination max_price min_rating limit db db' hs h :
  list_hotels destination max_price min_rating limit db = (db', Ok hs) → h ∈ hs →
  ∃ s d,
    db' = Some s ∧ d ∈ collection s "hotel" ∧
    matches (base_filter destination min_rating) d = Ok true ∧
    id h = default VNone (d !! "_id") ∧
    name h = default VNone (d !! "name") ∧
    location h = default VNone (d !! "location") ∧
    image h = default VNone (d !! "image") ∧
    offers h = default (VList []) (d !! "offers").
Proof.
  intros (s & all & hotels & _ & -> & Hfind & Hproj & Hsort)%list_hotels_Ok Hh.
  apply sort_Ok in Hsort as (Hperm & _). rewrite Hperm in Hh.
  destruct (project_all_Ok _ _ _ Hproj) as (Hfrom & _ & _).
  rewrite Forall_forall in Hfrom. destruct (Hfrom h Hh) as (d & Hd & Hp).
  destruct (find_Ok _ _ _ Hfind) as [Hsub Hall]. rewrite Forall_forall in Hall.
  assert (d ∈ all) as Hdall by (eapply elem_of_sublist; [done | apply sublist_take]).
  destruct (project_fields _ _ _ Hp) as [Hid Himg].
  apply project_Some in Hp as (Hoff & Hloc & Hname & _).
  exists s, d. split; [done|]. split; [by eapply elem_of_sublist|].
  split; [by apply Hall|]. done.
Qed.

(** The theorem at a store of two hotels, for the one without offers. *)
Lemma list_hotels_returns_stored_records_witness :
  unlisted_listing ∈ [unlisted_listing; pricey_listing] ∧
  ∃ s d,
    db_of [pricey_hotel; unlisted_hotel] = Some s ∧ d ∈ collection s "hotel" ∧
    matches (base_filter None None) d = Ok true ∧
    id unlisted_listing = default VNone (d !! "_id") ∧
    name unlisted_listing = default VNone (d !! "name") ∧
    location unlisted_listing = default VNone (d !! "location") ∧
    image unlisted_listing = default VNone (d !! "image") ∧
    offers unlisted_listing = default (VList []) (d !! "offers").
Proof.
  assert (unlisted_listing ∈ [unlisted_listing; pricey_listing]) as Hin by (by left).
  split; [exact Hin|].
  apply (list_hotels_returns_stored_records None None None 20
           (db_of [pricey_hotel; unlisted_hotel]) _ _ _ ltac:(vm_compute; reflexivity) Hin).
Defined.

(** In every response the offers of a hotel are empty or a non-empty
    list of mappings that each have a price: a kept hotel with an offer
    without one makes the call raise instead. *)
Theorem list_hotels_offers_priced destination max_price min_rating limit db db' hs h :
  list_hotels destination max_price min_rating limit db = (db', Ok hs) → h ∈ hs →
  (truthy (offers h) = false ∧ iter (offers h) = Ok []) ∨
  (∃ os, offers h = VList os ∧ os ≠ [] ∧ Forall priced_offer os).
Proof.
  intros (s & all & hotels & _ & _ & _ & Hproj & Hsort)%list_hotels_Ok Hh.
  apply sort_Ok in Hsort as (Hperm & srt & Hsrt & Hkeys & _).
  assert (∃ k, sort_key h = Ok k) as [k Hk].
  { rewrite Hsrt in Hh. apply list_elem_of_fmap in Hh as ([k h'] & -> & Hin).
    exists k. rewrite Forall_forall in Hkeys. by apply (Hkeys (k, h')). }
  rewrite Hperm in Hh.
  destruct (project_all_Ok _ _ _ Hproj) as (Hfrom & _ & _).
  rewrite Forall_forall in Hfrom. destruct (Hfrom h Hh) as (d & _ & Hp).
  apply project_Some in Hp as (_ & _ & _ & _ & _ & best & Hbest & _).
  unfold sort_key in Hk. destruct (truthy (offers h)) eqn:Ht.
  - right. apply bind_Ok in Hk as (os & Hos & Hk). apply bind_Ok in Hk as (vs & Hvs & _).
    exists os. by eapply iter_truthy_getitem.
  - left. split; [done|].
    unfold best_price in Hbest. apply bind_Ok in Hbest as (os & Hos & _).
    by rewrite Hos, (iter_falsy _ _ Ht Hos).
Qed.

(** The theorem at the same store, for the hotel with an offer. *)
Lemma list_hotels_offers_priced_witness :
  pricey_listing ∈ [unlisted_listing; pricey_listing] ∧
  ((truthy (offers pricey_listing) = false ∧ iter (offers pricey_listing) = Ok []) ∨
   (∃ os, offers pricey_listing = VList os ∧ os ≠ [] ∧ Forall priced_offer os)).
Proof.
  assert (pricey_listing ∈ [unlisted_listing; pricey_listing]) as Hin by (right; by left).
  split; [exact Hin|].
  apply (list_hotels_offers_priced None None None 20
           (db_of [pricey_hotel; unlisted_hotel]) _ _ _ ltac:(vm_compute; reflexivity) Hin).
Defined.
(* ===================================================================== *)
(** ** What a call writes *)
(* ===================================================================== *)

Lemma create_each_other hs : ∀ s s' n,
  create_each hs (Some s) = (Some s', Ok tt) → n ≠ "hotel" →
  collection s' n = collection s n.
Proof.
  induction hs as [|h hs IH]; intros s s' n Hrun Hn.
  - simpl in Hrun. by injection Hrun as <-.
  - simpl in Hrun. unfold mbind, M_bind, create_document in Hrun.
    rewrite (IH _ _ _ Hrun Hn). unfold collection. simpl.
    by rewrite lookup_insert_ne.
Qed.

(** Whatever a call of [list_hotels] does (return or raise), the store it
    leaves is the store its seed step leaves: an unreachable store stays
    unreachable, a hotel collection that is not empty is not written, and
    no other collection is ever written. *)
Theorem list_hotels_writes_only_seed destination max_price min_rating limit db :
  ∃ db1,
    _ensure_seed_hotels db = (db1, Ok tt) ∧
    (list_hotels destination max_price min_rating limit db).1 = db1 ∧
    (db = None → db1 = None) ∧
    (∀ s, db = Some s → collection s "hotel" ≠ [] → db1 = db) ∧
    (∀ s s1 n, db = Some s → db1 = Some s1 → n ≠ "hotel" →
               collection s1 n = collection s n).
Proof.
  destruct (ensure_seed_run db) as (db1 & Hseed & _). exists db1.
  split; [done|]. split.
  { unfold list_hotels, mbind at 1, M_bind at 1. rewrite Hseed.
    unfold mbind at 1, M_bind at 1, get_documents.
    destruct db1 as [s1|]; [|done].
    destruct (find _ _) as [all| |]; simpl; [|done..].
    unfold mbind at 1, M_bind at 1, pure.
    by destruct (project_all _ _) as [hs| |]. }
  split; [|split].
  - intros ->. simpl in Hseed. by injection Hseed as <-.
  - intros s -> Hne. rewrite (ensure_seed_nonempty s Hne) in Hseed. by injection Hseed as <-.
  - intros s s1 n -> -> Hn.
    destruct (collection s "hotel") as [|d ds] eqn:He.
    + unfold _ensure_seed_hotels, mbind, M_bind, handle, count_documents in Hseed.
      rewrite find_empty, He in Hseed.
      change (create_each sample_hotels (Some s) = (Some s1, Ok tt)) in Hseed.
      by eapply create_each_other.
    + rewrite ensure_seed_nonempty in Hseed by (by rewrite He). by injection Hseed as <-.
Qed.

(** The theorem at a call that raises: the store is as it was. *)
Lemma list_hotels_writes_only_seed_witness :
  collection (store_of [unpriced_offer_hotel]) "hotel" ≠ [] ∧
  (list_hotels None None None 20 (db_of [unpriced_offer_hotel])).1 =
    db_of [unpriced_offer_hotel].
Proof.
  assert (collection (store_of [unpriced_offer_hotel]) "hotel" ≠ []) as Hne
    by (vm_compute; discriminate).
  split; [exact Hne|].
  destruct (list_hotels_writes_only_seed None None None 20 (db_of [unpriced_offer_hotel]))
    as (db1 & _ & -> & _ & Hsame & _).
  exact (Hsame _ eq_refl Hne).
Defined.

(* ===================================================================== *)
(** ** The price filter as a whole *)
(* ===================================================================== *)

Lemma project_all_None docs kept :
  project_all None docs = Ok kept →
  Forall2 (fun d h => project None d = Ok (Some h)) docs kept.
Proof.
  revert kept; induction docs as [|d ds IH]; intros kept H; simpl in H.
  - injection H as <-. constructor.
  - apply bind_Ok in H as (oh & Hoh & H). apply bind_Ok in H as (hs & Hhs & H).
    injection H as <-.
    assert (∃ h, oh = Some h) as [h ->].
    { unfold project in Hoh. apply bind_Ok in Hoh as (best & _ & Hoh).
      simpl in Hoh. apply bind_Ok in Hoh as (r & _ & Hoh).
      apply bind_Ok in Hoh as (n & _ & Hoh). injection Hoh as <-. eauto. }
    simpl. constructor; [done | by apply IH].
Qed.

(** Without [max_price] the loop drops nothing: the response holds one
    hotel for each fetched record, the projection of that record. *)
Theorem list_hotels_without_max_price destination min_rating limit db db' hs :
  list_hotels destination None min_rating limit db = (db', Ok hs) →
  ∃ docs kept,
    get_documents "hotel" (base_filter destination min_rating) limit db' = (db', Ok docs) ∧
    Forall2 (fun d h => project None d = Ok (Some h)) docs kept ∧
    hs ≡ₚ kept ∧
    length hs = length docs.
Proof.
  intros (s & all & kept & _ & -> & Hfind & Hproj & Hsort)%list_hotels_Ok.
  apply sort_Ok in Hsort as (Hperm & _).
  pose proof (project_all_None _ _ Hproj) as Hall.
  exists (take (Z.to_nat limit) all), kept.
  split; [unfold get_documents; by rewrite Hfind|].
  split; [done|]. split; [done|].
  by rewrite Hperm, (Forall2_length _ _ _ Hall).
Qed.

(** The theorem at a store of two hotels. *)
Lemma list_hotels_without_max_price_witness :
  ∃ docs kept,
    get_documents "hotel" (base_filter None None) 20 (db_of [pricey_hotel; unlisted_hotel]) =
      (db_of [pricey_hotel; unlisted_hotel], Ok docs) ∧
    Forall2 (fun d h => project None d = Ok (Some h)) docs kept ∧
    [unlisted_listing; pricey_listing] ≡ₚ kept ∧
    length [unlisted_listing; pricey_listing] = length docs.
Proof.
  apply (list_hotels_without_max_price None None 20 (db_of [pricey_hotel; unlisted_hotel])).
  vm_compute. reflexivity.
Defined.

(** A record kept under one maximum is kept, with the same projection,
    under every maximum that admits more. *)
Lemma project_cap_le a b d h :
  cap_le a b → project a d = Ok (Some h) → project b d = Ok (Some h).
Proof.
  intros Hle H. unfold project in *.
  apply bind_Ok in H as (best & Hbest & H). apply bind_Ok in H as (over & Hover & H).
  destruct over; [done|].
  rewrite (bind_Ok_intro _ _ _ Hbest).
  assert (over_max_price b best = Ok false) as Hb.
  { destruct b as [m'|]; [|done]. destruct a as [m|]; [|done]. simpl in Hle.
    destruct best as [| z | q | | | | | |]; simpl in *; try done; injection Hover as Hover;
      f_equal; apply Qlt_bool_false; apply Qlt_bool_false in Hover; by eapply Qle_trans. }
  by rewrite (bind_Ok_intro _ _ _ Hb).
Qed.

(** Raising [max_price], or leaving it out, never removes a hotel from
    the response: of two calls that return and differ in [max_price]
    alone, the one with the larger maximum returns every hotel of the
    other. *)
Theorem list_hotels_max_price_monotone destination a b min_rating limit db db1 db2 hs hs' :
  cap_le a b →
  list_hotels destination a min_rating limit db = (db1, Ok hs) →
  list_hotels destination b min_rating limit db = (db2, Ok hs') →
  ∀ h, h ∈ hs → h ∈ hs'.
Proof.
  intros Hle (s & all & kept & Hseed & _ & Hfind & Hproj & Hsort)%list_hotels_Ok
             (s' & all' & kept' & Hseed' & _ & Hfind' & Hproj' & Hsort')%list_hotels_Ok h Hh.
  rewrite Hseed in Hseed'. injection Hseed' as <-.
  rewrite Hfind in Hfind'. injection Hfind' as <-.
  apply sort_Ok in Hsort as (Hperm & _). apply sort_Ok in Hsort' as (Hperm' & _).
  rewrite Hperm in Hh. rewrite Hperm'.
  destruct (project_all_Ok _ _ _ Hproj) as (Hfrom & _ & _).
  destruct (project_all_Ok _ _ _ Hproj') as (_ & _ & Hto).
  rewrite Forall_forall in Hfrom. rewrite Forall_forall in Hto.
  destruct (Hfrom h Hh) as (d & Hd & Hp).
  destruct (Hto d Hd) as (oh & Hp' & Hin).
  apply Hin. rewrite (project_cap_le _ _ _ _ Hle Hp) in Hp'. by injection Hp' as <-.
Qed.

(** The theorem on the demo records, for the maxima 150 and 200. *)
Lemma list_hotels_max_price_monotone_witness :
  cap_le (Some (150 # 1)) (Some (200 # 1)) ∧
  ∀ h, h ∈ returned (list_hotels None (Some (150 # 1)) None 20 (Some empty_db)) →
       h ∈ returned (list_hotels None (Some (200 # 1)) None 20 (Some empty_db)).
Proof.
  assert (cap_le (Some (150 # 1)) (Some (200 # 1))) as Hle by (by vm_compute).
  split; [exact Hle|].
  apply (list_hotels_max_price_monotone None _ _ None 20 (Some empty_db)
           (list_hotels None (Some (150 # 1)) None 20 (Some empty_db)).1
           (list_hotels None (Some (200 # 1)) None 20 (Some empty_db)).1 _ _ Hle);
    vm_compute; reflexivity.
Defined.
(* ===================================================================== *)
(** ** Ties in the order of the response *)
(* ===================================================================== *)


(** A hotel ranked at [q] has the key [q]. *)
Lemma ranked_at_key_is q h k :
  sort_key h = Ok k → ranked_at q h = true → key_is q (k, h) = true.
Proof.
  intros Hk. unfold ranked_at, key_is. simpl.
  destruct (price_key h) as [p|] eqn:Hp; [|done].
  destruct (sort_key_price_key _ _ Hp) as (k' & Hk' & Hnum).
  rewrite Hk in Hk'. injection Hk' as <-. by rewrite Hnum.
Qed.

Section Stable.
Context {A : Type}.
Implicit Types (kx ky : value * A) (l s : list (value * A)).

(** An item is never put behind one of its own rank. *)
Lemma lt_true_ranks q kx ky :
  lt ky.1 kx.1 = Ok true → key_is q ky = true → key_is q kx = true → False.
Proof.
  unfold key_is. intros Hlt Hy Hx.
  destruct (num_of ky.1) as [py|] eqn:Hpy; [|done].
  destruct (num_of kx.1) as [px|] eqn:Hpx; [|done].
  rewrite (lt_num _ _ _ _ Hpy Hpx) in Hlt. injection Hlt as Hlt.
  apply Qlt_bool_iff in Hlt. apply Qeq_bool_iff in Hy, Hx.
  rewrite Hy, Hx in Hlt. by apply Qlt_irrefl in Hlt.
Qed.

Lemma insert_by_key_stable q kx l s :
  insert_by_key kx l = Ok s →
  List.filter (key_is q) s = List.filter (key_is q) (kx :: l).
Proof.
  revert s; induction l as [|ky l IH]; intros s H; simpl in H.
  - by injection H as <-.
  - apply bind_Ok in H as (b & Hb & H). destruct b; [|by injection H as <-].
    apply bind_Ok in H as (r & Hr & H). injection H as <-.
    simpl. rewrite (IH _ Hr). simpl.
    destruct (key_is q ky) eqn:Hy, (key_is q kx) eqn:Hx; try done.
    destruct (lt_true_ranks q kx ky Hb Hy Hx).
Qed.

Lemma sort_keyed_stable q l s :
  sort_keyed l = Ok s → List.filter (key_is q) s = List.filter (key_is q) l.
Proof.
  revert s; induction l as [|kx l IH]; intros s H; simpl in H.
  - by injection H as <-.
  - apply bind_Ok in H as (r & Hr & H).
    rewrite (insert_by_key_stable _ _ _ _ H). simpl. by rewrite (IH _ Hr).
Qed.
End Stable.

(** The hotels ranked at [q] are among those whose key is [q]. *)
Lemma filter_ranked_keyed q (l : list (value * hotel)) :
  Forall (fun kx => sort_key kx.2 = Ok kx.1) l →
  List.filter (ranked_at q) (l.*2) =
    List.filter (ranked_at q) ((List.filter (key_is q) l).*2).
Proof.
  induction 1 as [|[k h] l Hk _ IH]; [done|].
  rewrite fmap_cons. simpl.
  destruct (key_is q (k, h)) eqn:Hkey.
  - rewrite fmap_cons. simpl. by rewrite IH.
  - destruct (ranked_at q h) eqn:Hr; [|done].
    by rewrite (ranked_at_key_is q h k Hk Hr) in Hkey.
Qed.

(** In a response without a NaN offer price, hotels of one rank price
    are returned in the order in which the loop kept them, which is the
    order in which the store returned their records: the sort is
    stable. *)
Theorem list_hotels_stable destination max_price min_rating limit db db' hs :
  list_hotels destination max_price min_rating limit db = (db', Ok hs) →
  nan_free hs →
  ∃ docs kept,
    get_documents "hotel" (base_filter destination min_rating) limit db' = (db', Ok docs) ∧
    project_all max_price docs = Ok kept ∧
    ∀ q, List.filter (ranked_at q) hs = List.filter (ranked_at q) kept.
Proof.
  intros (s & all & kept & _ & -> & Hfind & Hproj & Hsort)%list_hotels_Ok _.
  exists (take (Z.to_nat limit) all), kept.
  split; [unfold get_documents; by rewrite Hfind|]. split; [done|].
  intros q. unfold sort in Hsort.
  apply bind_Ok in Hsort as (ks & Hks & Hsort).
  destruct (nan_among ks); [done|].
  apply bind_Ok in Hsort as (srt & Hsrt & Hsort).
  injection Hsort as <-.
  pose proof (mapM_Ok_length _ _ _ Hks) as Hlen.
  assert (Forall (fun kx => sort_key kx.2 = Ok kx.1) (zip ks kept)) as Hzip.
  { apply mapM_Ok in Hks. clear -Hks. induction Hks; simpl; constructor; auto. }
  assert (Forall (fun kx => sort_key kx.2 = Ok kx.1) srt) as Hkeys.
  { by rewrite (sort_keyed_perm _ _ Hsrt). }
  rewrite (filter_ranked_keyed q _ Hkeys), (sort_keyed_stable q _ _ Hsrt).
  rewrite <- (filter_ranked_keyed q _ Hzip). by rewrite snd_zip by lia.
Qed.

(** The theorem at a store that holds one hotel twice. *)
Lemma list_hotels_stable_witness :
  nan_free [unlisted_listing; pricey_listing; pricey_listing] ∧
  ∃ docs kept,
    get_documents "hotel" (base_filter None None) 20
      (db_of [pricey_hotel; unlisted_hotel; pricey_hotel]) =
      (db_of [pricey_hotel; unlisted_hotel; pricey_hotel], Ok docs) ∧
    project_all None docs = Ok kept ∧
    ∀ q, List.filter (ranked_at q) [unlisted_listing; pricey_listing; pricey_listing] =
         List.filter (ranked_at q) kept.
Proof.
  assert (nan_free [unlisted_listing; pricey_listing; pricey_listing]) as Hfree.
  { repeat constructor. }
  split; [exact Hfree|].
  apply (list_hotels_stable None None None 20
           (db_of [pricey_hotel; unlisted_hotel; pricey_hotel])); [|exact Hfree].
  vm_compute. reflexivity.
Defined.
(* ===================================================================== *)
(** ** The diagnostic endpoint *)
(* ===================================================================== *)

(** The report's [database_url] and [database_name] are read from the
    environment variables alone: "Set" when the variable is set and not
    empty, "Not Set" otherwise.  What the probe wrote into them before
    (the word "Configured", the name of the database) never reaches the
    response, and neither is ever [None]. *)
Theorem test_database_reports_environment env :
  Diagnostics.backend (Diagnostics.test_database env) = "✅ Running" ∧
  Diagnostics.database_url (Diagnostics.test_database env) =
    Some (if Diagnostics.getenv_truthy (Diagnostics.DATABASE_URL env)
          then "✅ Set" else "❌ Not Set") ∧
  Diagnostics.database_name (Diagnostics.test_database env) =
    Some (if Diagnostics.getenv_truthy (Diagnostics.DATABASE_NAME env)
          then "✅ Set" else "❌ Not Set").
Proof.
  unfold Diagnostics.test_database.
  destruct (Diagnostics.database_module env) as [[h|]| |e]; [|done..].
  by destruct (Diagnostics.list_collection_names h).
Qed.

(** The report lists at most ten collections, the first ten the handle
    names; it lists any only when the handle is there and its listing
    worked, which is exactly when the status says "Connected & Working";
    and it says "Connected" exactly when the handle is there. *)
Theorem test_database_collections env :
  (length (Diagnostics.collections (Diagnostics.test_database env)) ≤ 10)%nat ∧
  (∀ h names,
     Diagnostics.database_module env = Diagnostics.Imported (Some h) →
     Diagnostics.list_collection_names h = Diagnostics.Names names →
     Diagnostics.collections (Diagnostics.test_database env) = take 10 names) ∧
  (Diagnostics.database (Diagnostics.test_database env) =
     Diagnostics.Literal "✅ Connected & Working" ↔
   ∃ h names,
     Diagnostics.database_module env = Diagnostics.Imported (Some h) ∧
     Diagnostics.list_collection_names h = Diagnostics.Names names) ∧
  (Diagnostics.collections (Diagnostics.test_database env) ≠ [] →
   Diagnostics.database (Diagnostics.test_database env) =
     Diagnostics.Literal "✅ Connected & Working") ∧
  (Diagnostics.connection_status (Diagnostics.test_database env) = "Connected" ↔
   ∃ h, Diagnostics.database_module env = Diagnostics.Imported (Some h)).
Proof.
  unfold Diagnostics.test_database.
  destruct (Diagnostics.database_module env) as [[h|]| |e] eqn:Hm; simpl.
  - destruct (Diagnostics.list_collection_names h) as [names|e] eqn:Hl; simpl.
    + split; [rewrite length_take; lia|].
      split; [by intros h' names' [= <-]; rewrite Hl; intros [= <-]|].
      split; [split; eauto|]. split; [done|]. split; eauto.
    + split; [lia|].
      split; [by intros h' names' [= <-]; rewrite Hl|].
      split; [split; [done|]; by intros (h' & names' & [= <-] & Hl'); rewrite Hl in Hl'|].
      split; [done|]. split; eauto.
  - split; [lia|]. split; [done|].
    split; [split; [done | by intros (? & ? & ? & _)]|].
    split; [done|]. split; [done | by intros [? ?]].
  - split; [lia|]. split; [done|].
    split; [split; [done | by intros (? & ? & ? & _)]|].
    split; [done|]. split; [done | by intros [? ?]].
  - split; [lia|]. split; [done|].
    split; [split; [done | by intros (? & ? & ? & _)]|].
    split; [done|]. split; [done | by intros [? ?]].
Qed.

(** The theorem at a handle that names twelve collections. *)
Lemma test_database_collections_witness :
  Diagnostics.collections
    (Diagnostics.test_database
       {| Diagnostics.database_module :=
            Diagnostics.Imported
              (Some {| Diagnostics.name := Some "app";
                       Diagnostics.list_collection_names :=
                         Diagnostics.Names ["a"; "b"; "c"; "d"; "e"; "f"; "g"; "h"; "i"; "j"; "k"; "hotel"] |});
          Diagnostics.DATABASE_URL := Some "mongodb://localhost";
          Diagnostics.DATABASE_NAME := None |}) =
  take 10 ["a"; "b"; "c"; "d"; "e"; "f"; "g"; "h"; "i"; "j"; "k"; "hotel"].
Proof.
  eapply (proj1 (proj2 (test_database_collections _))); reflexivity.
Defined.

(** An exception met by the probe is reported, never raised: the status
    then carries at most the first fifty characters of its text, after
    "Error: " when the import raised it and after "Connected but Error: "
    when the listing did. *)
Theorem test_database_error_text env prefix text :
  Diagnostics.database (Diagnostics.test_database env) = Diagnostics.WithError prefix text →
  (length text ≤ 50)%nat ∧
  ∃ e, text = take 50 e ∧
    ((Diagnostics.database_module env = Diagnostics.ImportRaises e ∧
      prefix = "❌ Error: ") ∨
     (∃ h, Diagnostics.database_module env = Diagnostics.Imported (Some h) ∧
           Diagnostics.list_collection_names h = Diagnostics.ListingRaises e ∧
           prefix = "⚠️  Connected but Error: ")).
Proof.
  unfold Diagnostics.test_database.
  destruct (Diagnostics.database_module env) as [[h|]| |e] eqn:Hm; simpl; try done.
  - destruct (Diagnostics.list_collection_names h) as [names|e] eqn:Hl; simpl; [done|].
    intros [= <- <-]. split; [rewrite length_take; lia|].
    exists e. split; [done|]. right. by exists h.
  - intros [= <- <-]. split; [rewrite length_take; lia|].
    exists e. split; [done|]. by left.
Qed.

(** The theorem at an import that raises a text of sixty characters. *)
Lemma test_database_error_text_witness :
  (length (take 50 (replicate 60 97%N)) ≤ 50)%nat ∧
  ∃ e, take 50 (replicate 60 97%N) = take 50 e ∧
    ((Diagnostics.ImportRaises (replicate 60 97%N) = Diagnostics.ImportRaises e ∧
      "❌ Error: " = "❌ Error: ") ∨
     (∃ h, Diagnostics.ImportRaises (replicate 60 97%N) = Diagnostics.Imported (Some h) ∧
           Diagnostics.list_collection_names h = Diagnostics.ListingRaises e ∧
           "❌ Error: " = "⚠️  Connected but Error: ")).
Proof.
  exact (test_database_error_text
           {| Diagnostics.database_module := Diagnostics.ImportRaises (replicate 60 97%N);
              Diagnostics.DATABASE_URL := None;
              Diagnostics.DATABASE_NAME := None |} _ _ eq_refl).
Defined.
